(** * amp_demo.py: a shallow embedding of the demo script and its properties

    The script [demo_scripts/amp_demo.py] sequences calls into the BAG
    framework.  What it computes itself is small: the five-point
    piecewise-linear stimulus written by [gen_pwl_data], the names of the
    testbench cells and of the result files, the in-place update of the
    [tran_fname] schematic parameter, the single [raise] after a failed LVS
    run, and the reordering of the DC sweep by [np.argsort].

    Python values are modelled as the code has them: floats are the kernel's
    binary64 numbers, strings are [string], dictionaries are association lists
    in insertion order, and the dictionaries the script updates in place are
    objects in a store, reached by reference.  The file system is a tree of
    directories and regular files; paths are resolved as the operating system
    resolves them, component by component through the tree.  Calls into BAG
    are recorded in a trace of events. *)

From Stdlib Require Import ZArith QArith Qabs List String Ascii Bool Lia.
From Stdlib Require Import PrimFloat FloatOps SpecFloat FloatAxioms.
From Stdlib Require Import DecimalString.
From Stdlib Require Import Permutation Sorted.
Import ListNotations.

Set Warnings "-inexact-float,-register-all".

Local Open Scope string_scope.
Local Open Scope Z_scope.

(** ** Python strings *)

Module PyStr.

Fixpoint repeat_char (c : ascii) (n : nat) : string :=
  match n with
  | O => EmptyString
  | S k => String c (repeat_char c k)
  end.

(** [s.startswith(p)]. *)
Definition startswith (p s : string) : bool := String.prefix p s.

Fixpoint last_char (s : string) : option ascii :=
  match s with
  | EmptyString => None
  | String c EmptyString => Some c
  | String _ r => last_char r
  end.

(** [s.endswith(c)] for a one-character suffix. *)
Definition endswith_char (c : ascii) (s : string) : bool :=
  match last_char s with
  | Some d => Ascii.eqb c d
  | None => false
  end.

(** [s.split(sep)] for a one-character separator: never the empty list. *)
Fixpoint split (sep : ascii) (s : string) : list string :=
  match s with
  | EmptyString => [EmptyString]
  | String c r =>
      if Ascii.eqb c sep then EmptyString :: split sep r
      else match split sep r with
           | [] => [String c EmptyString]
           | w :: ws => String c w :: ws
           end
  end.

(** [sep.join(parts)]. *)
Definition join (sep : string) (parts : list string) : string :=
  String.concat sep parts.

(** [c in s]. *)
Fixpoint contains (c : ascii) (s : string) : bool :=
  match s with
  | EmptyString => false
  | String d r => Ascii.eqb c d || contains c r
  end.

(** [s.rstrip(c)]. *)
Fixpoint rstrip (c : ascii) (s : string) : string :=
  match s with
  | EmptyString => EmptyString
  | String d r =>
      match rstrip c r with
      | EmptyString => if Ascii.eqb d c then EmptyString else String d EmptyString
      | r' => String d r'
      end
  end.

(** [s[:i]] where [i = s.rfind(c) + 1]: everything up to and including the
    last occurrence of [c], empty when [c] does not occur. *)
Fixpoint upto_last (c : ascii) (s : string) : string :=
  match s with
  | EmptyString => EmptyString
  | String d r =>
      if contains c r then String d (upto_last c r)
      else if Ascii.eqb d c then String d EmptyString
      else EmptyString
  end.

(** [s[i:]] for the same [i]. *)
Fixpoint after_last (c : ascii) (s : string) : string :=
  match s with
  | EmptyString => EmptyString
  | String d r =>
      if contains c r then after_last c r
      else if Ascii.eqb d c then r
      else s
  end.

(** [s == c * len(s)]. *)
Fixpoint all_char (c : ascii) (s : string) : bool :=
  match s with
  | EmptyString => true
  | String d r => Ascii.eqb d c && all_char c r
  end.

(** [s.split()]: split on runs of blanks, no empty words. *)
Definition is_space (c : ascii) : bool :=
  Ascii.eqb c " " || Ascii.eqb c "009" || Ascii.eqb c "010" || Ascii.eqb c "013".

Fixpoint words_aux (cur : string) (s : string) : list string :=
  match s with
  | EmptyString => match cur with EmptyString => [] | _ => [cur] end
  | String c r =>
      if is_space c
      then match cur with
           | EmptyString => words_aux EmptyString r
           | _ => cur :: words_aux EmptyString r
           end
      else words_aux (cur ++ String c EmptyString) r
  end.

Definition words (s : string) : list string := words_aux EmptyString s.

(** [s.splitlines()] for text whose lines end in a line feed. *)
Definition lines (s : string) : list string :=
  match rev (split "010" s) with
  | EmptyString :: r => rev r
  | l => rev l
  end.

End PyStr.

(** ** Python numbers and the ['%.4g'] conversion *)

(** [tvec] mixes the integer [0] with floats; ['%g'] converts an integer
    operand with [float()] before formatting. *)
Inductive pynum : Type :=
| PyInt (z : Z)
| PyFloat (f : float).

(** [float(z)], rounded to nearest even (Python refuses an integer beyond the
    range of a float; the script converts only [0]). *)
Definition float_of_Z (z : Z) : float :=
  SF2Prim (binary_normalize prec emax z 0 false).

Definition to_float (n : pynum) : float :=
  match n with
  | PyInt z => float_of_Z z
  | PyFloat f => f
  end.

(** The exact rational value of a finite float; [None] for infinities and NaN. *)
Definition float_value (x : float) : option Q :=
  match Prim2SF x with
  | S754_zero _ => Some 0%Q
  | S754_finite s m e =>
      let mag := if 0 <=? e then inject_Z (Zpos m * 2 ^ e)
                 else (Zpos m # Pos.shiftl 1 (Z.to_N (- e))) in
      Some (if s then Qopp mag else mag)
  | _ => None
  end.

Module Fmt.

(** Decimal digits of a natural number, most significant first. *)
Definition digits (n : Z) : string :=
  NilZero.string_of_uint (N.to_uint (Z.to_N n)).

Definition ndigits (n : Z) : Z := Z.of_nat (String.length (digits n)).

(** [v = num / den >= 10 ^ x], for positive [num] and [den]. *)
Definition ge_pow10 (num den x : Z) : bool :=
  if 0 <=? x then den * 10 ^ x <=? num else den <=? num * 10 ^ (- x).

(** The decimal exponent of [num / den]: the [x] with
    [10 ^ x <= num / den < 10 ^ (x + 1)]. *)
Definition dec_exponent (num den : Z) : Z :=
  let x0 := ndigits num - ndigits den in
  if ge_pow10 num den x0 then x0 else x0 - 1.

(** Round [n / d] to the nearest integer, ties to even. *)
Definition round_half_even (n d : Z) : Z :=
  let q := n / d in
  let r := n mod d in
  match 2 * r ?= d with
  | Lt => q
  | Gt => q + 1
  | Eq => if Z.even q then q else q + 1
  end.

(** [p] significant digits of [num / den], correctly rounded, with the
    decimal exponent of the rounded value. *)
Definition sig_digits (p : Z) (num den : Z) : Z * Z :=
  let x := dec_exponent num den in
  let k := x - p + 1 in
  let d := if 0 <=? k then round_half_even num (den * 10 ^ k)
           else round_half_even (num * 10 ^ (- k)) den in
  if 10 ^ p <=? d then (10 ^ (p - 1), x + 1) else (d, x).

Definition strip_zeros (s : string) : string := PyStr.rstrip "0" s.

Definition with_point (int_part frac : string) : string :=
  match frac with
  | EmptyString => int_part
  | _ => int_part ++ "." ++ frac
  end.

(** The exponent of the scientific form: a sign and at least two digits. *)
Definition exp_part (x : Z) : string :=
  let a := digits (Z.abs x) in
  "e" ++ (if x <? 0 then "-" else "+")
      ++ (if Nat.ltb (String.length a) 2 then "0" ++ a else a).

(** The ['g'] presentation of [d * 10 ^ (x - p + 1)], where [d] has [p]
    digits: fixed notation when [-4 <= x < p], scientific otherwise, trailing
    zeros and a trailing point removed. *)
Definition render (p : Z) (d x : Z) : string :=
  let ds := digits d in
  if (x <? -4) || (p <=? x) then
    with_point (substring 0 1 ds)
               (strip_zeros (substring 1 (String.length ds - 1) ds))
      ++ exp_part x
  else if x <? 0 then
    with_point "0" (strip_zeros (PyStr.repeat_char "0" (Z.to_nat (- x - 1)) ++ ds))
  else
    let n := Z.to_nat (x + 1) in
    with_point (substring 0 n ds)
               (strip_zeros (substring n (String.length ds - n) ds)).

(** ['%.{p}g' % x] for a float [x]. *)
Definition format_g (p : Z) (x : float) : string :=
  match Prim2SF x with
  | S754_nan => "nan"
  | S754_infinity s => if s then "-inf" else "inf"
  | S754_zero s => if s then "-0" else "0"
  | S754_finite s m e =>
      let num := if 0 <=? e then Zpos m * 2 ^ e else Zpos m in
      let den := if 0 <=? e then 1 else 2 ^ (- e) in
      let '(d, x) := sig_digits p num den in
      (if s then "-" else "") ++ render p d x
  end.

(** ['%.4g' % n]. *)
Definition format_4g (n : pynum) : string := format_g 4 (to_float n).

End Fmt.

(** ** [os.path] on POSIX *)

Module PosixPath.

Definition isabs (p : string) : bool := PyStr.startswith "/" p.

(** [os.path.join(a, b)]. *)
Definition join (a b : string) : string :=
  if PyStr.startswith "/" b then b
  else if String.eqb a "" || PyStr.endswith_char "/" a then a ++ b
  else a ++ "/" ++ b.

(** [os.path.dirname(p)]. *)
Definition dirname (p : string) : string :=
  let head := PyStr.upto_last "/" p in
  if negb (String.eqb head "") && negb (PyStr.all_char "/" head)
  then PyStr.rstrip "/" head
  else head.

(** [os.path.basename(p)]. *)
Definition basename (p : string) : string := PyStr.after_last "/" p.

(** [os.path.split(p)]. *)
Definition split (p : string) : string * string := (dirname p, basename p).

(** One step of the loop of [normpath] over the components; the stack of
    kept components has its last element first. *)
Definition norm_step (initial_slashes : nat) (st : list string) (comp : string)
  : list string :=
  if String.eqb comp "" || String.eqb comp "." then st
  else if negb (String.eqb comp "..")
          || (Nat.eqb initial_slashes 0 && match st with [] => true | _ => false end)
          || match st with c :: _ => String.eqb c ".." | [] => false end
       then comp :: st
       else match st with _ :: st' => st' | [] => [] end.

Definition initial_slashes (path : string) : nat :=
  if PyStr.startswith "/" path
  then if PyStr.startswith "//" path && negb (PyStr.startswith "///" path)
       then 2%nat else 1%nat
  else 0%nat.

(** The components [normpath] keeps, in order. *)
Definition norm_comps (path : string) : list string :=
  rev (fold_left (norm_step (initial_slashes path)) (PyStr.split "/" path) []).

(** [os.path.normpath(path)]. *)
Definition normpath (path : string) : string :=
  if String.eqb path "" then "."
  else
    let r := PyStr.repeat_char "/" (initial_slashes path)
               ++ PyStr.join "/" (norm_comps path) in
    if String.eqb r "" then "." else r.

(** [os.path.abspath(path)] in the working directory [cwd]. *)
Definition abspath (cwd path : string) : string :=
  normpath (if isabs path then path else join cwd path).

End PosixPath.

(** ** The file system

    A tree of directories and regular files.  There are no symbolic links;
    the process may read, write and search everywhere, and the device never
    runs out of space: what is modelled is the structure of the tree, the
    resolution of paths through it, and the limits on the length of names. *)

Inductive node : Type :=
| File (content : string)
| Dir (entries : list (string * node)).

(** The errors of the system calls, by their Python names; [FileNameTooLong]
    is the [OSError] of [ENAMETOOLONG], which has no class of its own. *)
Inductive os_error : Type :=
| FileNotFoundError
| FileExistsError
| NotADirectoryError
| IsADirectoryError
| FileNameTooLong.

(** The tree itself: entries are found and changed at a location, the list of
    names that leads to them from the root. *)
Module FS.

Fixpoint lookup {V : Type} (k : string) (es : list (string * V)) : option V :=
  match es with
  | [] => None
  | (k', v) :: r => if String.eqb k k' then Some v else lookup k r
  end.

(** Replace the value of the first entry for [k], or add one at the end. *)
Fixpoint set {V : Type} (k : string) (v : V) (es : list (string * V))
  : list (string * V) :=
  match es with
  | [] => [(k, v)]
  | (k', v') :: r =>
      if String.eqb k k' then (k', v) :: r else (k', v') :: set k v r
  end.

Fixpoint find (comps : list string) (n : node) : option node :=
  match comps with
  | [] => Some n
  | c :: r =>
      match n with
      | File _ => None
      | Dir es => match lookup c es with
                  | Some child => find r child
                  | None => None
                  end
      end
  end.

(** Make an empty directory at [comps], in a directory that is there. *)
Fixpoint mkdir (comps : list string) (n : node) : os_error + node :=
  match comps, n with
  | [], _ => inl FileExistsError
  | _ :: _, File _ => inl NotADirectoryError
  | [c], Dir es =>
      match lookup c es with
      | Some _ => inl FileExistsError
      | None => inr (Dir (set c (Dir []) es))
      end
  | c :: r, Dir es =>
      match lookup c es with
      | None => inl FileNotFoundError
      | Some child =>
          match mkdir r child with
          | inl e => inl e
          | inr child' => inr (Dir (set c child' es))
          end
      end
  end.

(** Make the directory at [comps] and every missing directory on the way to
    it; a directory that is there is left as it is. *)
Fixpoint mkdir_p (comps : list string) (n : node) : os_error + node :=
  match comps, n with
  | [], Dir _ => inr n
  | [], File _ => inl FileExistsError
  | _ :: _, File _ => inl NotADirectoryError
  | c :: r, Dir es =>
      match mkdir_p r (match lookup c es with
                       | Some child => child
                       | None => Dir []
                       end) with
      | inl e => inl e
      | inr child' => inr (Dir (set c child' es))
      end
  end.

(** Create or truncate the regular file at [comps] and write [content]. *)
Fixpoint write (comps : list string) (content : string) (n : node)
  : os_error + node :=
  match comps, n with
  | [], _ => inl IsADirectoryError
  | _ :: _, File _ => inl NotADirectoryError
  | [c], Dir es =>
      match lookup c es with
      | Some (Dir _) => inl IsADirectoryError
      | _ => inr (Dir (set c (File content) es))
      end
  | c :: r, Dir es =>
      match lookup c es with
      | None => inl FileNotFoundError
      | Some child =>
          match write r content child with
          | inl e => inl e
          | inr child' => inr (Dir (set c child' es))
          end
      end
  end.

(** The content of the regular file at [comps]. *)
Definition read (comps : list string) (n : node) : option string :=
  match find comps n with
  | Some (File s) => Some s
  | _ => None
  end.

Definition is_dir (comps : list string) (n : node) : bool :=
  match find comps n with
  | Some (Dir _) => true
  | _ => false
  end.

(** Walking down [comps] from [n] never meets a regular file. *)
Fixpoint no_file_on (comps : list string) (n : node) : bool :=
  match n with
  | File _ => false
  | Dir es =>
      match comps with
      | [] => true
      | c :: r => match lookup c es with
                  | Some child => no_file_on r child
                  | None => true
                  end
      end
  end.

End FS.

(** ** Path resolution and the system calls

    As Linux does it: a path is walked component by component from the root
    or from the working directory; every component but the last must lead to
    a directory, [.] stays and [..] goes to the parent, whatever the name
    before it was, so [f/../x] fails when [f] is a regular file and
    [d/../x] needs [d] to be there. *)
Module OS.

Local Open Scope list_scope.

(** [NAME_MAX] and [PATH_MAX] (the latter counts the terminating byte). *)
Definition name_max : nat := 255.
Definition path_max : nat := 4096.

(** The components of a path: the non-empty parts between slashes. *)
Definition components (path : string) : list string :=
  filter (fun c => negb (String.eqb c "")) (PyStr.split "/" path).

Definition trailing_slash (path : string) : bool := PyStr.endswith_char "/" path.

Definition is_dot (c : string) : bool := String.eqb c "." || String.eqb c "..".

(** One component, looked up in the directory at [cur]: where it leads. *)
Definition step (root : node) (cur : list string) (c : string)
  : os_error + list string :=
  if String.eqb c "." then inr cur
  else if String.eqb c ".." then inr (removelast cur)
  else if Nat.ltb name_max (String.length c) then inl FileNameTooLong
  else match FS.find (cur ++ [c]) root with
       | None => inl FileNotFoundError
       | Some (File _) => inl NotADirectoryError
       | Some (Dir _) => inr (cur ++ [c])
       end.

Fixpoint walk (root : node) (cur : list string) (comps : list string)
  : os_error + list string :=
  match comps with
  | [] => inr cur
  | c :: r =>
      match step root cur c with
      | inl e => inl e
      | inr cur' => walk root cur' r
      end
  end.

(** Where the walk starts: the root for an absolute path, the working
    directory otherwise, which must still be there. *)
Definition start (root : node) (cwd path : string) : os_error + list string :=
  match root with
  | File _ => inl NotADirectoryError
  | Dir _ =>
      if PosixPath.isabs path then inr []
      else match walk root [] (components cwd) with
           | inr cur => inr cur
           | inl _ => inl FileNotFoundError
           end
  end.

(** What a path leads to: an entry that is there, or a name that is free in
    a directory that is there. *)
Inductive target : Type :=
| Found (loc : list string) (n : node)
| Absent (parent : list string) (name : string).

Definition found (root : node) (loc : list string) : os_error + target :=
  match FS.find loc root with
  | Some n => inr (Found loc n)
  | None => inl FileNotFoundError
  end.

Definition namei (root : node) (cwd path : string) : os_error + target :=
  if String.eqb path "" then inl FileNotFoundError
  else if Nat.leb path_max (String.length path) then inl FileNameTooLong
  else
    match start root cwd path with
    | inl e => inl e
    | inr cur0 =>
        let comps := components path in
        match walk root cur0 (removelast comps) with
        | inl e => inl e
        | inr cur =>
            let c := last comps "" in
            if String.eqb c "" then found root cur
            else if is_dot c then
              match step root cur c with
              | inl e => inl e
              | inr loc => found root loc
              end
            else if Nat.ltb name_max (String.length c) then inl FileNameTooLong
            else match FS.find (cur ++ [c]) root with
                 | Some n => inr (Found (cur ++ [c]) n)
                 | None => inr (Absent cur c)
                 end
        end
    end.

(** [stat(path)]. *)
Definition stat (root : node) (cwd path : string) : os_error + node :=
  match namei root cwd path with
  | inl e => inl e
  | inr (Absent _ _) => inl FileNotFoundError
  | inr (Found _ (File s)) =>
      if trailing_slash path then inl NotADirectoryError else inr (File s)
  | inr (Found _ (Dir es)) => inr (Dir es)
  end.

(** [mkdir(path)]. *)
Definition mkdir (root : node) (cwd path : string) : os_error + node :=
  match namei root cwd path with
  | inl e => inl e
  | inr (Found _ _) => inl FileExistsError
  | inr (Absent cur c) => FS.mkdir (cur ++ [c]) root
  end.

(** [open(path, O_WRONLY | O_CREAT | O_TRUNC)], the write of [content] and
    the [close]. *)
Definition open_w (root : node) (cwd path content : string) : os_error + node :=
  match namei root cwd path with
  | inl e => inl e
  | inr t =>
      if trailing_slash path then inl IsADirectoryError
      else match t with
           | Found _ (Dir _) => inl IsADirectoryError
           | Found loc (File _) => FS.write loc content root
           | Absent cur c => FS.write (cur ++ [c]) content root
           end
  end.

End OS.

(** ** Python values, exceptions and the state of the run *)

(** The values a YAML specification holds at its leaves. *)
Inductive pyval : Type :=
| VNone
| VBool (b : bool)
| VNum (n : pynum)
| VStr (s : string)
| VList (l : list pyval).

(** A [dict] with string keys, in insertion order; lookups and updates go to
    the first entry of a key. *)
Definition dict (V : Type) : Type := list (string * V).

Definition dict_get {V : Type} (k : string) (d : dict V) : option V := FS.lookup k d.
Definition dict_set {V : Type} (k : string) (v : V) (d : dict V) : dict V := FS.set k v d.
Definition dict_mem {V : Type} (k : string) (d : dict V) : bool :=
  match dict_get k d with Some _ => true | None => false end.
Definition dict_keys {V : Type} (d : dict V) : list string := map fst d.

(** One column of a simulation result: real samples, or complex ones as
    (real, imaginary) pairs. *)
Inductive column : Type :=
| RealVec (v : list float)
| ComplexVec (v : list (float * float)).

Definition sim_data : Type := dict column.

(** Exceptions, by where they are raised: [ValueError] by the [raise] statement
    of [gen_schematics]; [KeyError] and [TypeError] by the interpreter on a
    missing key or a non-string path; [OSError] by a system call;
    [NulByteError] is the [ValueError('embedded null byte')] with which the
    [os] module refuses a path before any system call, kept apart from the
    [ValueError] of the script's own [raise]; [RecursionError] by the
    interpreter when calls nest too deep. *)
Inductive exn : Type :=
| ValueError (msg : string)
| KeyError (key : string)
| TypeError
| OSError (e : os_error) (path : string)
| NulByteError
| RecursionError.

Inductive result (A : Type) : Type :=
| Ok (a : A)
| Raise (e : exn).
Arguments Ok {A} a.
Arguments Raise {A} e.

(** What the script does to the world besides the file system: output on the
    console and calls into BAG, in order. *)
Inductive event : Type :=
| Print (line : string)
| CreateDesignModule (lib cell : string)
| Design (lib cell : string) (params : dict pyval)
| ImplementDesign (lib cell impl_lib top_cell_name : string)
| RunLvs (impl_lib cell : string)
| ConfigureTestbench (impl_lib tb_cell : string)
| SetParameter (tb_cell key : string) (val : pyval)
| SetSimulationView (tb_cell lib cell view : string)
| SetSimulationEnvironments (tb_cell : string) (envs : list string)
| UpdateTestbench (tb_cell : string)
| RunSimulation (tb_cell : string)
| LoadSimResults (save_dir : string)
| SaveSimResults (fname : string) (data : sim_data)
| LoadSimFile (fname : string).

Record world : Type := mkWorld {
  w_cwd : string;          (* os.getcwd(), never changed by the script *)
  w_root : node;           (* the file system, from "/" *)
  w_trace : list event     (* events so far, oldest first *)
}.

(** A computation that may raise and that changes the world; what was done
    before an exception stays done. *)
Definition M (A : Type) : Type := world -> result A * world.

Definition ret {A : Type} (a : A) : M A := fun w => (Ok a, w).

Definition raise {A : Type} (e : exn) : M A := fun w => (Raise e, w).

Definition bind {A B : Type} (m : M A) (k : A -> M B) : M B :=
  fun w => match m w with
           | (Ok a, w') => k a w'
           | (Raise e, w') => (Raise e, w')
           end.

Declare Scope py_scope.
Delimit Scope py_scope with py.
Notation "x <- m ;; k" := (bind m (fun x => k))
  (at level 61, m at next level, right associativity) : py_scope.
Notation "m ;;; k" := (bind m (fun _ => k))
  (at level 61, right associativity) : py_scope.
Local Open Scope py_scope.

Definition emit (e : event) : M unit :=
  fun w => (Ok tt, mkWorld (w_cwd w) (w_root w) (w_trace w ++ [e])).

Definition print (line : string) : M unit := emit (Print line).

Definition getcwd : M string := fun w => (Ok (w_cwd w), w).

(** [os.path.abspath(path)]. *)
Definition abspath (path : string) : M string :=
  cwd <- getcwd ;; ret (PosixPath.abspath cwd path).

(** ** The [os] module *)

(** A path with a null byte is refused before the system is asked. *)
Definition has_nul (path : string) : bool := PyStr.contains "000" path.

(** [os.stat(path)], for what its callers look at: the kind of the entry. *)
Definition stat (path : string) (w : world) : result node :=
  if has_nul path then Raise NulByteError
  else match OS.stat (w_root w) (w_cwd w) path with
       | inl e => Raise (OSError e path)
       | inr n => Ok n
       end.

(** [os.path.exists(path)] and [os.path.isdir(path)]: false on any error. *)
Definition path_exists (path : string) (w : world) : bool :=
  match stat path w with
  | Ok _ => true
  | Raise _ => false
  end.

Definition path_isdir (path : string) (w : world) : bool :=
  match stat path w with
  | Ok (Dir _) => true
  | _ => false
  end.

(** A call that changes the file system at [path], or fails with the path
    in the exception. *)
Definition change (path : string) (call : node -> string -> string -> os_error + node)
  : M unit :=
  fun w =>
    if has_nul path then (Raise NulByteError, w)
    else match call (w_root w) (w_cwd w) path with
         | inl e => (Raise (OSError e path), w)
         | inr root' => (Ok tt, mkWorld (w_cwd w) root' (w_trace w))
         end.

(** [os.mkdir(path)]. *)
Definition mkdir (path : string) : M unit := change path OS.mkdir.

(** The last three lines of [os.makedirs(name, exist_ok=True)]: an error of
    [mkdir] is ignored if the name is a directory all the same. *)
Definition mkdir_exist_ok (name : string) : M unit :=
  fun w =>
    match mkdir name w with
    | (Raise (OSError e p), w') =>
        if path_isdir name w' then (Ok tt, w') else (Raise (OSError e p), w')
    | rw => rw
    end.

(** Its first three lines: [head, tail = path.split(name)], and once more on
    the head when the tail is empty. *)
Definition head_tail (name : string) : string * string :=
  let '(head, tail) := PosixPath.split name in
  if String.eqb tail "" then PosixPath.split head else (head, tail).

(** [os.makedirs(name, exist_ok=True)], as the library has it: the head of
    the name is made first when it is not there, by a nested call whose
    [FileExistsError] is ignored, and nothing more is done for a tail [.];
    then the name itself is made.  [depth] is the number of nested calls
    still allowed. *)
Fixpoint makedirs_from (depth : nat) (name : string) : M unit :=
  fun w =>
    let '(head, tail) := head_tail name in
    if negb (String.eqb head "") && negb (String.eqb tail "")
       && negb (path_exists head w)
    then
      match depth with
      | O => (Raise RecursionError, w)
      | S depth' =>
          let '(r, w1) :=
            match makedirs_from depth' head w with
            | (Raise (OSError FileExistsError _), w1) => (Ok tt, w1)
            | rw => rw
            end in
          match r with
          | Raise e => (Raise e, w1)
          | Ok _ => if String.eqb tail "." then (Ok tt, w1)
                    else mkdir_exist_ok name w1
          end
      end
    else mkdir_exist_ok name w.

(** Each nested call is on a name shorter than the one before, so the length
    of the name is depth enough; the interpreter's own limit on the depth of
    calls (a thousand frames unless changed) is not modelled. *)
Definition makedirs (name : string) : M unit :=
  makedirs_from (String.length name) name.

(** [with open(fname, 'w') as f: f.write(content)]. *)
Definition write_file (fname content : string) : M unit :=
  change fname (fun root cwd path => OS.open_w root cwd path content).

(** The content of the regular file [fname], if there is one. *)
Definition file_content (fname : string) (w : world) : option string :=
  match stat fname w with
  | Ok (File s) => Some s
  | _ => None
  end.

(** ** [gen_pwl_data] *)

Module Pwl.

Local Open Scope float_scope.

Definition td : float := 100e-12.
Definition tpulse : float := 800e-12.
Definition tr : float := 20e-12.
Definition amp : float := 10e-3.

Definition tvec : list pynum :=
  [PyInt 0; PyFloat td; PyFloat (td + tr); PyFloat (td + tr + tpulse);
   PyFloat (td + tr + tpulse + tr)].

Definition yvec : list pynum :=
  [PyFloat (- amp); PyFloat (- amp); PyFloat amp; PyFloat amp; PyFloat (- amp)].

(** ['%.4g %.4g\n' % (t, y)]. *)
Definition line (ty : pynum * pynum) : string :=
  Fmt.format_4g (fst ty) ++ " " ++ Fmt.format_4g (snd ty) ++ String "010" "".

(** Everything the loop over [zip(tvec, yvec)] writes. *)
Definition text : string := String.concat "" (map line (combine tvec yvec)).

End Pwl.

Definition gen_pwl_data (fname : string) : M unit :=
  let dir_name := PosixPath.dirname fname in
  makedirs dir_name ;;;
  write_file fname Pwl.text.

(** ** The specification file and the BAG project *)

(** The parameter dictionaries of a specification are objects: an entry of
    the specification holds a reference to its dictionary, two entries may
    hold the same reference (one dictionary, written once in the YAML file
    and aliased), and an update through one reference is seen through the
    other. *)
Definition ref : Type := nat.

(** The dictionary behind every reference. *)
Definition heap : Type := ref -> dict pyval.

(** [h[r] = v]. *)
Definition heap_set (r : ref) (v : dict pyval) (h : heap) : heap :=
  fun r' => if Nat.eqb r' r then v else h r'.

(** The YAML specification, with the keys the script reads as fields (the
    script indexes them without a check, so a specification is taken to have
    them).  The design entries and the testbenches are dictionaries; the
    schematic and testbench parameters are references to dictionaries in
    [objects]. *)
Record tb_info : Type := mkTb {
  tb_lib : string;
  tb_cell : string;
  sch_params : ref;
  tb_params : ref
}.

Record dsn_specs : Type := mkDsn {
  impl_lib : string;
  sch_lib : string;
  sch_cell : string;
  gen_cell : string;
  data_dir : string;
  testbenches : dict tb_info
}.

Record specs : Type := mkSpecs {
  view_name : string;
  sim_envs : list string;
  designs : dict dsn_specs;
  objects : heap
}.

Definition set_objects (s : specs) (h : heap) : specs :=
  mkSpecs (view_name s) (sim_envs s) (designs s) h.

(** What the script gets back from BAG: the verdict and the log of an LVS run,
    the directory a testbench saves into, and the data the two loaders return. *)
Record bag_project : Type := mkBag {
  run_lvs : string -> string -> bool * string;
  save_dir : string -> string -> string;
  load_sim_results : string -> sim_data;
  load_sim_file : string -> sim_data
}.

(** ['%s_%s' % (gen_cell, name)]. *)
Definition tb_gen_cell_name (gen_cell name : string) : string :=
  gen_cell ++ "_" ++ name.

(** ** [gen_schematics] *)

(** Lines 97-100, on the dictionary behind [tb_sch_params]: the stimulus file
    is written at the absolute path, and only then is the entry of the
    dictionary replaced, in place. *)
Definition absolutize_tran_fname (tb_sch_params : ref)
  : heap -> world -> result unit * heap * world :=
  fun h w =>
    match dict_get "tran_fname" (h tb_sch_params) with
    | None => (Ok tt, h, w)
    | Some (VStr p) =>
        match (tran_fname <- abspath p ;;
               gen_pwl_data tran_fname ;;;
               ret tran_fname) w with
        | (Ok tran_fname, w') =>
            (Ok tt,
             heap_set tb_sch_params
                      (dict_set "tran_fname" (VStr tran_fname) (h tb_sch_params)) h,
             w')
        | (Raise e, w') => (Raise e, h, w')
        end
    | Some _ => (Raise TypeError, h, w)
    end.

(** Lines 102-106.  A parameter named like one of the two explicit keyword
    arguments makes the call itself a [TypeError]. *)
Definition implement_testbench (impl_lib gen_cell tb_gen_cell : string)
    (info : tb_info) (tb_sch_params : dict pyval) : M unit :=
  emit (CreateDesignModule (tb_lib info) (tb_cell info)) ;;;
  print ("computing " ++ tb_gen_cell ++ " schematics") ;;;
  (if dict_mem "dut_lib" tb_sch_params || dict_mem "dut_cell" tb_sch_params
   then raise TypeError
   else emit (Design (tb_lib info) (tb_cell info)
                     (("dut_lib", VStr impl_lib) :: ("dut_cell", VStr gen_cell)
                        :: tb_sch_params))) ;;;
  print ("creating " ++ tb_gen_cell ++ " schematics") ;;;
  emit (ImplementDesign (tb_lib info) (tb_cell info) impl_lib tb_gen_cell).

(** One iteration of the loop of lines 90-106. *)
Definition gen_tb_schematic (impl_lib gen_cell name : string) (info : tb_info)
  : heap -> world -> result unit * heap * world :=
  fun h w =>
    let tb_gen_cell := tb_gen_cell_name gen_cell name in
    match absolutize_tran_fname (sch_params info) h w with
    | (Raise e, h1, w1) => (Raise e, h1, w1)
    | (Ok _, h1, w1) =>
        let '(r, w2) :=
          implement_testbench impl_lib gen_cell tb_gen_cell info
                              (h1 (sch_params info)) w1 in
        (r, h1, w2)
    end.

Fixpoint gen_tb_schematics (impl_lib gen_cell : string) (tbs : dict tb_info)
  : heap -> world -> result unit * heap * world :=
  fun h w =>
    match tbs with
    | [] => (Ok tt, h, w)
    | (name, info) :: rest =>
        match gen_tb_schematic impl_lib gen_cell name info h w with
        | (Raise e, h1, w1) => (Raise e, h1, w1)
        | (Ok _, h1, w1) => gen_tb_schematics impl_lib gen_cell rest h1 w1
        end
    end.

(** Lines 76-88: the design's own schematic and the LVS run. *)
Definition gen_top_schematic (prj : bag_project) (d : dsn_specs)
    (sch_params : dict pyval) (check_lvs : bool) : M unit :=
  emit (CreateDesignModule (sch_lib d) (sch_cell d)) ;;;
  print ("computing " ++ gen_cell d ++ " schematics") ;;;
  emit (Design (sch_lib d) (sch_cell d) sch_params) ;;;
  print ("creating " ++ gen_cell d ++ " schematics") ;;;
  emit (ImplementDesign (sch_lib d) (sch_cell d) (impl_lib d) (gen_cell d)) ;;;
  if check_lvs then
    print "running lvs" ;;;
    emit (RunLvs (impl_lib d) (gen_cell d)) ;;;
    let '(lvs_passed, lvs_log) := run_lvs prj (impl_lib d) (gen_cell d) in
    if negb lvs_passed
    then raise (ValueError ("LVS failed.  check log file: " ++ lvs_log))
    else print "lvs passed"
  else ret tt.

(** [gen_schematics(prj, specs, dsn_name, sch_params, check_lvs)]: the result,
    the specification as the call leaves it (the same entries and references,
    with the dictionaries behind them as they are then), and the world. *)
Definition gen_schematics (prj : bag_project) (s : specs) (dsn_name : string)
    (sch_params : dict pyval) (check_lvs : bool)
  : world -> result unit * specs * world :=
  fun w =>
    match dict_get dsn_name (designs s) with
    | None => (Raise (KeyError dsn_name), s, w)
    | Some d =>
        match gen_top_schematic prj d sch_params check_lvs w with
        | (Raise e, w1) => (Raise e, s, w1)
        | (Ok _, w1) =>
            let '(r, h', w2) :=
              gen_tb_schematics (impl_lib d) (gen_cell d) (testbenches d)
                                (objects s) w1 in
            let s' := set_objects s h' in
            match r with
            | Raise e => (Raise e, s', w2)
            | Ok _ => let '(r3, w3) := print "schematic done" w2 in (r3, s', w3)
            end
        end
    end.

(** ** [simulate] and [load_sim_data] *)

(** [os.path.join(data_dir, '%s.hdf5' % tb_gen_cell)]. *)
Definition result_file (d : dsn_specs) (name : string) : string :=
  PosixPath.join (data_dir d) (tb_gen_cell_name (gen_cell d) name ++ ".hdf5").

Fixpoint set_parameters (tb : string) (tb_params : dict pyval) : M unit :=
  match tb_params with
  | [] => ret tt
  | (key, val) :: rest => emit (SetParameter tb key val) ;;; set_parameters tb rest
  end.

Fixpoint simulate_loop (prj : bag_project) (view_name : string)
    (sim_envs : list string) (d : dsn_specs) (h : heap) (tbs : dict tb_info)
    (results_dict : dict sim_data) : M (dict sim_data) :=
  match tbs with
  | [] => ret results_dict
  | (name, info) :: rest =>
      let tb_gen_cell := tb_gen_cell_name (gen_cell d) name in
      print ("setting up " ++ tb_gen_cell) ;;;
      emit (ConfigureTestbench (impl_lib d) tb_gen_cell) ;;;
      set_parameters tb_gen_cell (h (tb_params info)) ;;;
      emit (SetSimulationView tb_gen_cell (impl_lib d) (gen_cell d) view_name) ;;;
      emit (SetSimulationEnvironments tb_gen_cell sim_envs) ;;;
      emit (UpdateTestbench tb_gen_cell) ;;;
      print "running simulation" ;;;
      emit (RunSimulation tb_gen_cell) ;;;
      print "simulation done, load results" ;;;
      let dir := save_dir prj (impl_lib d) tb_gen_cell in
      emit (LoadSimResults dir) ;;;
      let results := load_sim_results prj dir in
      emit (SaveSimResults (result_file d name) results) ;;;
      simulate_loop prj view_name sim_envs d h rest
                    (dict_set name results results_dict)
  end.

Definition simulate (prj : bag_project) (s : specs) (dsn_name : string)
  : M (dict sim_data) :=
  match dict_get dsn_name (designs s) with
  | None => raise (KeyError dsn_name)
  | Some d =>
      results_dict <- simulate_loop prj (view_name s) (sim_envs s) d (objects s)
                                    (testbenches d) [] ;;
      print "all simulation done" ;;;
      ret results_dict
  end.

Fixpoint load_loop (prj : bag_project) (d : dsn_specs) (tbs : dict tb_info)
    (results_dict : dict sim_data) : M (dict sim_data) :=
  match tbs with
  | [] => ret results_dict
  | (name, info) :: rest =>
      let tb_gen_cell := tb_gen_cell_name (gen_cell d) name in
      let fname := result_file d name in
      print ("loading simulation data for " ++ tb_gen_cell) ;;;
      emit (LoadSimFile fname) ;;;
      load_loop prj d rest (dict_set name (load_sim_file prj fname) results_dict)
  end.

Definition load_sim_data (prj : bag_project) (s : specs) (dsn_name : string)
  : M (dict sim_data) :=
  match dict_get dsn_name (designs s) with
  | None => raise (KeyError dsn_name)
  | Some d =>
      results_dict <- load_loop prj d (testbenches d) [] ;;
      print "finish loading data" ;;;
      ret results_dict
  end.

(** ** [plot_data]: the reordering of the DC sweep (lines 169-171) *)

Module Plot.

Local Open Scope nat_scope.






Section WithArgsort.

Variable argsort : list float -> list nat.


End WithArgsort.

End Plot.

(** ** [plot_data]: magnitude and phase of the AC response (lines 193, 197) *)

Module Np.

Local Open Scope float_scope.


Section WithLibm.

(** The three functions of the C library that numpy calls elementwise. *)
Variables (log10 : float -> float) (hypot arctan2 : float -> float -> float).

(** [np.abs(z)] for a complex sample, real part first. *)
Definition abs (z : float * float) : float := hypot (fst z) (snd z).



End WithLibm.




End Np.
(** ** Reading a stimulus file back *)

Module Reader.

(** A non-empty string of decimal digits as a number. *)
Definition parse_nat (s : string) : option Z :=
  match s with
  | EmptyString => None
  | _ => match NilZero.uint_of_string s with
         | Some u => Some (Z.of_N (N.of_uint u))
         | None => None
         end
  end.

(** An optionally signed string of digits. *)
Definition parse_int (s : string) : option Z :=
  match s with
  | String "-" r => option_map Z.opp (parse_nat r)
  | String "+" r => parse_nat r
  | _ => parse_nat s
  end.

Definition pow10 (e : Z) : Q :=
  if 0 <=? e then inject_Z (10 ^ e) else (1 # Z.to_pos (10 ^ (- e))).

(** An unsigned decimal [digits[.digits]] with the exponent [e]. *)
Definition parse_mantissa (s : string) (e : Z) : option Q :=
  match PyStr.split "." s with
  | [ip] => option_map (fun n => inject_Z n * pow10 e)%Q (parse_nat ip)
  | [ip; fp] =>
      match parse_nat (ip ++ fp) with
      | Some n =>
          Some (inject_Z n * pow10 (e - Z.of_nat (String.length fp)))%Q
      | None => None
      end
  | _ => None
  end.

(** A decimal literal [[-]digits[.digits][e[+-]digits]] as the rational it
    denotes. *)
Definition parse_decimal (s : string) : option Q :=
  let '(neg, body) := match s with
                      | String "-" r => (true, r)
                      | String "+" r => (false, r)
                      | _ => (false, s)
                      end in
  let v := match PyStr.split "e" body with
           | [m] => parse_mantissa m 0
           | [m; x] => match parse_int x with
                       | Some e => parse_mantissa m e
                       | None => None
                       end
           | _ => None
           end in
  option_map (fun q => if neg then Qopp q else q) v.

(** One line of two blank-separated numbers. *)
Definition parse_line (l : string) : option (Q * Q) :=
  match PyStr.words l with
  | [t; y] => match parse_decimal t, parse_decimal y with
              | Some qt, Some qy => Some (qt, qy)
              | _, _ => None
              end
  | _ => None
  end.

Fixpoint sequence {A : Type} (l : list (option A)) : option (list A) :=
  match l with
  | [] => Some []
  | Some a :: r => option_map (cons a) (sequence r)
  | None :: _ => None
  end.

(** Modelled from the spec: the reader of the stimulus file is the simulator,
    which is not part of the repository; the spec calls the file plain text
    of whitespace-separated "time amplitude" pairs, one per line, and this
    reads exactly that, each number as the rational its decimal literal
    denotes. *)
Definition read_pwl (text : string) : option (list (Q * Q)) :=
  sequence (map parse_line (PyStr.lines text)).

(** [q] agrees with [v] to four significant digits: the relative error is at
    most 5e-4, the most that rounding to four significant digits can cause
    (half a unit of the fourth digit of a value that starts with 1000). *)
Definition within_4_digits (v q : Q) : Prop :=
  (Qabs (q - v) * 2000 <= Qabs v)%Q.

End Reader.


(** ** Vocabulary of the statements *)

Definition float_lt (x y : float) : Prop := (x <? y)%float = true.

(** The five lines of every stimulus file. *)
Definition pwl_lines : string :=
"0 -0.01
1e-10 -0.01
1.2e-10 0.01
9.2e-10 0.01
9.4e-10 -0.01
".

(** A number of the script and the rational read back for it agree to four
    significant digits. *)
Definition agrees (n : pynum) (q : Q) : Prop :=
  exists v, float_value (to_float n) = Some v /\ Reader.within_4_digits v q.

(** The events of lines 76-80 and of lines 83-84. *)
Definition top_events (d : dsn_specs) (sch_params : dict pyval) : list event :=
  [CreateDesignModule (sch_lib d) (sch_cell d);
   Print ("computing " ++ gen_cell d ++ " schematics");
   Design (sch_lib d) (sch_cell d) sch_params;
   Print ("creating " ++ gen_cell d ++ " schematics");
   ImplementDesign (sch_lib d) (sch_cell d) (impl_lib d) (gen_cell d)].

Definition lvs_events (d : dsn_specs) : list event :=
  [Print "running lvs"; RunLvs (impl_lib d) (gen_cell d)].

(** An exception that does not come from the [raise] statement. *)
Definition not_value_error (e : exn) : Prop :=
  match e with
  | ValueError _ => False
  | _ => True
  end.

(** The message of the one [raise] of the script. *)
Definition lvs_failed_message (lvs_log : string) : string :=
  "LVS failed.  check log file: " ++ lvs_log.


(** The schematic parameters with the path under ['tran_fname'], when there
    is one, made absolute from the working directory [cwd]. *)
Definition abs_params (cwd : string) (sp : dict pyval) : dict pyval :=
  match dict_get "tran_fname" sp with
  | Some (VStr p) => dict_set "tran_fname" (VStr (PosixPath.abspath cwd p)) sp
  | _ => sp
  end.

(** [r] is the dictionary of schematic parameters of one of the testbenches
    [done]. *)
Definition touched (done : dict tb_info) (r : ref) : bool :=
  existsb (fun ni => Nat.eqb r (sch_params (snd ni))) done.

(** The dictionaries once [gen_schematics] has been through the testbenches
    [done]: the schematic parameters of these have the path made absolute,
    whichever entries refer to them, and all others are as they were. *)
Definition abs_objects (cwd : string) (done : dict tb_info) (h : heap) : heap :=
  fun r => if touched done r then abs_params cwd (h r) else h r.





(** The dictionary a loop builds by [results_dict[name] = f(name)] over
    [names], from [acc]. *)
Definition collect {V : Type} (f : string -> V) (names : list string)
    (acc : dict V) : dict V :=
  fold_left (fun a name => dict_set name (f name) a) names acc.

(** What [simulate] gets from BAG for one testbench: the results found in
    the directory the testbench saves into. *)
Definition sim_result (prj : bag_project) (d : dsn_specs) (name : string)
  : sim_data :=
  load_sim_results prj
    (save_dir prj (impl_lib d) (tb_gen_cell_name (gen_cell d) name)).

(** The events of one iteration of the loop of [simulate] (lines 123-139),
    with the dictionaries as [h] has them. *)
Definition sim_events (prj : bag_project) (view : string) (envs : list string)
    (d : dsn_specs) (h : heap) (ni : string * tb_info) : list event :=
  let tb := tb_gen_cell_name (gen_cell d) (fst ni) in
  ([Print ("setting up " ++ tb); ConfigureTestbench (impl_lib d) tb]
     ++ map (fun kv => SetParameter tb (fst kv) (snd kv)) (h (tb_params (snd ni)))
     ++ [SetSimulationView tb (impl_lib d) (gen_cell d) view;
         SetSimulationEnvironments tb envs;
         UpdateTestbench tb;
         Print "running simulation";
         RunSimulation tb;
         Print "simulation done, load results";
         LoadSimResults (save_dir prj (impl_lib d) tb);
         SaveSimResults (result_file d (fst ni)) (sim_result prj d (fst ni))])%list.

(** The events of one iteration of the loop of [load_sim_data]. *)
Definition load_events (d : dsn_specs) (ni : string * tb_info) : list event :=
  [Print ("loading simulation data for " ++ tb_gen_cell_name (gen_cell d) (fst ni));
   LoadSimFile (result_file d (fst ni))].

(** The result files a trace saves to, with what is saved, and the ones it
    loads from. *)
Definition saved (tr : list event) : list (string * sim_data) :=
  flat_map (fun e => match e with SaveSimResults f data => [(f, data)] | _ => [] end) tr.

Definition loaded_files (tr : list event) : list string :=
  flat_map (fun e => match e with LoadSimFile f => [f] | _ => [] end) tr.

(** A name that is an entry of its directory: not [.] or [..], and no
    longer than the system allows.  (A component of a path is never empty
    and holds no slash.) *)
Definition plain_name (c : string) : bool :=
  negb (OS.is_dot c) && Nat.leb (String.length c) OS.name_max.

(** A number of directories that [os.makedirs] can go down, one nested call
    for each, within the interpreter's default limit of 1000 nested calls,
    which the calls around it share. *)
Definition makedirs_reach : nat := 900.

(** ** A concrete run, for evaluating the definitions *)

Module Demo.

Local Open Scope float_scope.

(** A home directory with nothing in it. *)
Definition fs0 : node := Dir [("home", Dir [("user", Dir [])])].

Definition w0 : world := mkWorld "/home/user" fs0 [].

(** The same, with a regular file where a directory is wanted. *)
Definition w_blocked : world :=
  mkWorld "/home/user" (Dir [("home", Dir [("user", Dir [("data", File "")])])]) [].

(** The same, with a directory where the stimulus file is wanted. *)
Definition w_is_dir : world :=
  mkWorld "/home/user"
          (Dir [("home", Dir [("user", Dir [("data", Dir [("pwl.txt", Dir [])])])])]) [].

(** BAG, with the verdict of LVS chosen. *)
Definition prj (lvs_ok : bool) : bag_project :=
  mkBag (fun lib cell => (lvs_ok, "/lvs/" ++ cell ++ ".log"))
        (fun lib cell => "/sim/" ++ cell)
        (fun _ => [("vout", RealVec [0.5; 0.6])])
        (fun _ => [("vout", RealVec [0.5; 0.6])]).

(** Two testbenches, each with its own two dictionaries. *)
Definition tb_dc : tb_info :=
  mkTb "bag_demo_testbenches" "amp_tb_dc" 0%nat 1%nat.

Definition tb_ac_tran : tb_info :=
  mkTb "bag_demo_testbenches" "amp_tb_ac_tran" 2%nat 3%nat.

Definition amp_sf : dsn_specs :=
  mkDsn "AAAFOO_DEMO" "demo_templates" "amp_sf" "AMP_SF" "demo_data"
        [("tb_dc", tb_dc); ("tb_ac_tran", tb_ac_tran)].

Definition demo_objects (tran_fname : string) : heap :=
  fun r =>
    match r with
    | 0%nat => [("vdd", VNum (PyFloat 1.0))]
    | 1%nat => [("vin_start", VNum (PyFloat 0.0))]
    | 2%nat => [("vbias", VNum (PyFloat 0.5)); ("tran_fname", VStr tran_fname)]
    | 3%nat => [("tsim", VNum (PyFloat 2e-9))]
    | _ => []
    end.

(** The specification, with the stimulus path as the YAML file gives it. *)
Definition demo_specs (tran_fname : string) : specs :=
  mkSpecs "schematic" ["tt"] [("amp_sf", amp_sf)] (demo_objects tran_fname).


(** A design whose generated cell name and testbench name hold slashes. *)
Definition odd_names : dsn_specs :=
  mkDsn "AAAFOO_DEMO" "demo_templates" "amp_sf" "/G" "demo_data"
        [("a/b", tb_dc)].

Definition odd_specs : specs :=
  mkSpecs "schematic" ["tt"] [("amp_sf", odd_names)] (demo_objects "pwl.txt").

Definition dsn_sch_params : dict pyval := [("w", VNum (PyFloat 4.0))].




Definition hypot (x y : float) : float :=
  if is_zero y then abs x else if is_zero x then abs y else nan.


End Demo.

(** * Properties *)

(** ** Dictionaries *)

Section DictFacts.

Context {V : Type}.
Implicit Types (k : string) (v : V) (es : list (string * V)).

Lemma lookup_set_same k v es : FS.lookup k (FS.set k v es) = Some v.
Proof.
  induction es as [|[k' v'] r IH]; simpl.
  - now rewrite String.eqb_refl.
  - destruct (String.eqb k k') eqn:E; simpl; rewrite E; auto.
Qed.

Lemma lookup_set_other k k' v es :
  k' <> k -> FS.lookup k' (FS.set k v es) = FS.lookup k' es.
Proof.
  intros Hne. induction es as [|[k0 v0] r IH]; simpl.
  - apply String.eqb_neq in Hne. now rewrite Hne.
  - destruct (String.eqb k k0) eqn:E; simpl.
    + apply String.eqb_eq in E. subst k0.
      apply String.eqb_neq in Hne. now rewrite Hne.
    + now rewrite IH.
Qed.

Lemma set_lookup_id k v es : FS.lookup k es = Some v -> FS.set k v es = es.
Proof.
  induction es as [|[k' v'] r IH]; simpl; [discriminate|].
  destruct (String.eqb k k') eqn:E; intros H.
  - now inversion H.
  - now rewrite IH.
Qed.

Lemma set_set k v v' es : FS.set k v (FS.set k v' es) = FS.set k v es.
Proof.
  induction es as [|[k' v0] r IH]; simpl.
  - now rewrite String.eqb_refl.
  - destruct (String.eqb k k') eqn:E; simpl; rewrite E; [reflexivity|now rewrite IH].
Qed.

Lemma keys_set_present k v es :
  FS.lookup k es <> None -> map fst (FS.set k v es) = map fst es.
Proof.
  induction es as [|[k' v'] r IH]; simpl; [congruence|].
  destruct (String.eqb k k') eqn:E; simpl; intros H; [reflexivity|].
  now rewrite IH.
Qed.


End DictFacts.

(** ** The file system *)

Module FSFacts.

Import FS.

Local Open Scope list_scope.

Lemma find_app l r n :
  find (l ++ r) n = match find l n with
                    | Some m => find r m
                    | None => None
                    end.
Proof.
  revert n. induction l as [|k l IH]; intros n; simpl; [reflexivity|].
  destruct n as [s|es]; [reflexivity|].
  destruct (lookup k es); auto.
Qed.

Lemma find_file l s n c : find l n = Some (File s) -> find (l ++ [c]) n = None.
Proof. intros H. rewrite find_app, H. reflexivity. Qed.

(** What is on the way to an entry is a directory. *)
Lemma is_dir_parent l c n x : find (l ++ [c]) n = Some x -> is_dir l n = true.
Proof.
  unfold is_dir. rewrite find_app.
  destruct (find l n) as [[s|es]|]; simpl; congruence.
Qed.

Lemma is_dir_app_l l r n : is_dir (l ++ r) n = true -> is_dir l n = true.
Proof.
  revert l. induction r as [|c r IH] using rev_ind; intros l.
  - now rewrite app_nil_r.
  - rewrite app_assoc. intros H. apply IH.
    unfold is_dir in H.
    destruct (find ((l ++ r) ++ [c]) n) as [x|] eqn:F; [|discriminate].
    exact (is_dir_parent _ _ _ _ F).
Qed.

Lemma is_dir_root l n : is_dir l n = true -> exists es, n = Dir es.
Proof.
  intros H. apply (is_dir_app_l [] l) in H.
  unfold is_dir in H. simpl in H. destruct n; [discriminate|eauto].
Qed.

Lemma is_dir_removelast l n : is_dir l n = true -> is_dir (removelast l) n = true.
Proof.
  destruct l as [|k l] using rev_ind; [auto|].
  rewrite removelast_last. apply is_dir_app_l.
Qed.

Lemma write_find comps c n n' :
  write comps c n = inr n' -> find comps n' = Some (File c).
Proof.
  revert n n'. induction comps as [|k r IH]; intros n n'; simpl; [discriminate|].
  destruct n as [s|es]; [destruct r; discriminate|].
  destruct r as [|k2 r2].
  - destruct (lookup k es) as [[s|es']|] eqn:L; intros H; inversion H; subst;
      simpl; now rewrite lookup_set_same.
  - destruct (lookup k es) as [child|] eqn:L; [|discriminate].
    destruct (write (k2 :: r2) c child) as [e|child'] eqn:W; [discriminate|].
    intros H; inversion H; subst. cbn [find]. rewrite lookup_set_same.
    now apply IH with (n := child).
Qed.

Lemma write_idem comps c n n' :
  write comps c n = inr n' -> write comps c n' = inr n'.
Proof.
  revert n n'. induction comps as [|k r IH]; intros n n'; simpl; [discriminate|].
  destruct n as [s|es]; [destruct r; discriminate|].
  destruct r as [|k2 r2].
  - destruct (lookup k es) as [[s|es']|] eqn:L; intros H; inversion H; subst;
      rewrite lookup_set_same, set_set; reflexivity.
  - destruct (lookup k es) as [child|] eqn:L; [|discriminate].
    destruct (write (k2 :: r2) c child) as [e|child'] eqn:W; [discriminate|].
    intros H; inversion H; subst.
    rewrite lookup_set_same, (IH _ _ W), set_set. reflexivity.
Qed.

(** Writing a file removes no directory. *)
Lemma write_keeps_dirs comps c n n' :
  write comps c n = inr n' ->
  forall p, is_dir p n = true -> is_dir p n' = true.
Proof.
  unfold is_dir.
  revert n n'. induction comps as [|k r IH]; intros n n'; simpl; [discriminate|].
  destruct n as [s|es]; [destruct r; discriminate|].
  destruct r as [|k2 r2].
  - destruct (lookup k es) as [[s|es']|] eqn:L; intros H; inversion H; subst;
      intros [|q p]; simpl; auto;
      (destruct (String.eqb q k) eqn:E;
       [apply String.eqb_eq in E; subst q; rewrite L, lookup_set_same;
        destruct p; simpl; congruence
       |apply String.eqb_neq in E; now rewrite lookup_set_other]).
  - destruct (lookup k es) as [child|] eqn:L; [|discriminate].
    destruct (write (k2 :: r2) c child) as [e|child'] eqn:W; [discriminate|].
    intros H; inversion H; subst. intros [|q p]; simpl; auto.
    destruct (String.eqb q k) eqn:E.
    + apply String.eqb_eq in E; subst q. rewrite L, lookup_set_same.
      apply (IH _ _ W).
    + apply String.eqb_neq in E. now rewrite lookup_set_other.
Qed.

(** A file can be written where its directory is and no directory is in its
    place. *)
Lemma write_below comps b c n :
  is_dir comps n = true -> is_dir (comps ++ [b]) n = false ->
  exists n', write (comps ++ [b]) c n = inr n'.
Proof.
  unfold is_dir.
  revert n. induction comps as [|k r IH]; intros [s|es]; simpl;
    try discriminate.
  - intros _. destruct (lookup b es) as [[s|es']|]; try discriminate; eauto.
  - destruct (lookup k es) as [child|] eqn:L; [|discriminate].
    intros Hd Hf. destruct (IH _ Hd Hf) as [child' W].
    destruct (r ++ [b])%list as [|k2 r2] eqn:E; [destruct r; discriminate|].
    rewrite W. eauto.
Qed.

(** Making a directory removes none. *)
Lemma mkdir_keeps_dirs comps n n' :
  mkdir comps n = inr n' ->
  forall p, is_dir p n = true -> is_dir p n' = true.
Proof.
  unfold is_dir.
  revert n n'. induction comps as [|k r IH]; intros n n'; simpl; [discriminate|].
  destruct n as [s|es]; [destruct r; discriminate|].
  destruct r as [|k2 r2].
  - destruct (lookup k es) as [x|] eqn:L; intros H; inversion H; subst.
    intros [|q p]; simpl; auto.
    destruct (String.eqb q k) eqn:E.
    + apply String.eqb_eq in E; subst q. now rewrite L.
    + apply String.eqb_neq in E. now rewrite lookup_set_other.
  - destruct (lookup k es) as [child|] eqn:L; [|discriminate].
    destruct (mkdir (k2 :: r2) child) as [e|child'] eqn:W; [discriminate|].
    intros H; inversion H; subst. intros [|q p]; simpl; auto.
    destruct (String.eqb q k) eqn:E.
    + apply String.eqb_eq in E; subst q. rewrite L, lookup_set_same.
      apply (IH _ _ W).
    + apply String.eqb_neq in E. now rewrite lookup_set_other.
Qed.

Lemma mkdir_p_is_dir comps n n' :
  mkdir_p comps n = inr n' -> is_dir comps n' = true.
Proof.
  unfold is_dir.
  revert n n'. induction comps as [|k r IH]; intros [s|es] n'; simpl;
    try discriminate.
  - intros H; inversion H; reflexivity.
  - destruct (mkdir_p r _) as [e|child'] eqn:Mk; [discriminate|].
    intros H; inversion H; subst. simpl. rewrite lookup_set_same.
    now apply IH in Mk.
Qed.

(** Where the directory is there, nothing changes. *)
Lemma mkdir_p_id comps n : is_dir comps n = true -> mkdir_p comps n = inr n.
Proof.
  unfold is_dir.
  revert n. induction comps as [|k r IH]; intros [s|es]; simpl;
    try discriminate; auto.
  destruct (lookup k es) as [child|] eqn:L; [|discriminate].
  intros H. rewrite (IH _ H). now rewrite set_lookup_id.
Qed.

Lemma mkdir_p_succeeds comps n :
  no_file_on comps n = true -> exists n', mkdir_p comps n = inr n'.
Proof.
  revert n. induction comps as [|k r IH]; intros [s|es]; simpl;
    try discriminate; eauto.
  intros H.
  assert (Hc : no_file_on r (match lookup k es with
                             | Some child => child
                             | None => Dir []
                             end) = true).
  { destruct (lookup k es); auto. destruct r; reflexivity. }
  destruct (IH _ Hc) as [child' ->]. eauto.
Qed.

(** The directories made hold nothing, and what was below stays. *)
Lemma mkdir_p_find_below comps b n n' :
  mkdir_p comps n = inr n' ->
  find (comps ++ [b]) n' = find (comps ++ [b]) n.
Proof.
  revert n n'. induction comps as [|k r IH]; intros [s|es] n'; simpl;
    try discriminate.
  - intros H; inversion H; reflexivity.
  - destruct (mkdir_p r _) as [e|child'] eqn:Mk; [discriminate|].
    intros H; inversion H; subst. rewrite lookup_set_same.
    rewrite (IH _ _ Mk). destruct (lookup k es); auto.
    destruct r; reflexivity.
Qed.

Lemma mkdir_p_keeps_dirs comps n n' :
  mkdir_p comps n = inr n' ->
  forall p, is_dir p n = true -> is_dir p n' = true.
Proof.
  unfold is_dir.
  revert n n'. induction comps as [|k r IH]; intros [s|es] n'; simpl;
    try discriminate.
  - intros H; inversion H; auto.
  - destruct (mkdir_p r _) as [e|child'] eqn:Mk; [discriminate|].
    intros H; inversion H; subst. intros [|q p]; simpl; auto.
    destruct (String.eqb q k) eqn:E.
    + apply String.eqb_eq in E; subst q. rewrite lookup_set_same.
      destruct (lookup k es) as [child|]; [|discriminate].
      apply (IH _ _ Mk).
    + apply String.eqb_neq in E. now rewrite lookup_set_other.
Qed.

(** Making the directories up to [l] first changes nothing for a longer
    chain. *)
Lemma mkdir_p_prefix l c n r1 :
  mkdir_p l n = inr r1 -> mkdir_p (l ++ [c]) r1 = mkdir_p (l ++ [c]) n.
Proof.
  revert n r1. induction l as [|k l IH]; intros [s|es] r1; simpl;
    try discriminate.
  - intros H; inversion H; reflexivity.
  - destruct (mkdir_p l _) as [e|child'] eqn:Mk; [discriminate|].
    intros H; inversion H; subst. rewrite lookup_set_same.
    rewrite (IH _ _ Mk).
    destruct (mkdir_p (l ++ [c]) _) as [e|x]; [reflexivity|].
    now rewrite set_set.
Qed.

(** One [mkdir] below a directory that is there is the last step of
    [mkdir_p]. *)
Lemma mkdir_below l c n :
  is_dir l n = true -> find (l ++ [c]) n = None ->
  exists n', mkdir (l ++ [c]) n = inr n' /\ mkdir_p (l ++ [c]) n = inr n'.
Proof.
  unfold is_dir.
  revert n. induction l as [|k l IH]; intros [s|es]; simpl; try discriminate.
  - intros _. destruct (lookup c es) as [x|] eqn:L; [discriminate|]. eauto.
  - destruct (lookup k es) as [child|] eqn:L; [|discriminate].
    intros Hd Hf. destruct (IH _ Hd Hf) as (child' & M1 & M2).
    destruct (l ++ [c])%list as [|k2 r2] eqn:E; [destruct l; discriminate|].
    rewrite M1, M2. eauto.
Qed.

Lemma no_file_on_app_l l r n : no_file_on (l ++ r) n = true -> no_file_on l n = true.
Proof.
  revert n. induction l as [|k l IH]; intros [s|es]; simpl.
  - destruct r; discriminate.
  - reflexivity.
  - discriminate.
  - destruct (lookup k es); auto.
Qed.

(** Where no file is on the way, what is there is a directory. *)
Lemma no_file_on_find l n x :
  no_file_on l n = true -> find l n = Some x -> is_dir l n = true.
Proof.
  unfold is_dir.
  revert n. induction l as [|k l IH]; intros [s|es]; simpl; try discriminate.
  - intros _ H. now inversion H.
  - destruct (lookup k es); [apply IH|discriminate].
Qed.

End FSFacts.

(** ** Strings and paths *)

Module StrFacts.

Import PyStr.

Lemma append_nil_r (s : string) : s ++ "" = s.
Proof. induction s as [|d r IH]; simpl; [reflexivity|now rewrite IH]. Qed.

Lemma append_assoc (a b c : string) : (a ++ b) ++ c = a ++ (b ++ c).
Proof. induction a as [|d r IH]; simpl; [reflexivity|now rewrite IH]. Qed.

Lemma length_append (a b : string) :
  String.length (a ++ b) = (String.length a + String.length b)%nat.
Proof. induction a as [|d r IH]; simpl; [reflexivity|now rewrite IH]. Qed.

Lemma append_eq_nil (a b : string) : a ++ b = "" -> a = "" /\ b = "".
Proof. destruct a; simpl; [auto|discriminate]. Qed.

Lemma contains_app c a b : contains c (a ++ b) = contains c a || contains c b.
Proof.
  induction a as [|d r IH]; simpl; [reflexivity|].
  now rewrite IH, orb_assoc.
Qed.

Lemma split_not_nil c s : split c s <> [].
Proof.
  destruct s as [|d r]; simpl; [discriminate|].
  destruct (Ascii.eqb d c); [discriminate|].
  destruct (split c r); discriminate.
Qed.

Lemma split_app_sep c a b :
  split c (a ++ String c b) = (split c a ++ split c b)%list.
Proof.
  induction a as [|d r IH]; simpl.
  - now rewrite Ascii.eqb_refl.
  - destruct (Ascii.eqb d c); [now rewrite IH|].
    rewrite IH. destruct (split c r) as [|w ws] eqn:E; [|reflexivity].
    now apply split_not_nil in E.
Qed.

Lemma split_no_sep c s : contains c s = false -> split c s = [s].
Proof.
  induction s as [|d r IH]; simpl; [reflexivity|].
  rewrite (Ascii.eqb_sym c d). destruct (Ascii.eqb d c); simpl; [discriminate|].
  intros H. now rewrite (IH H).
Qed.

Lemma upto_after c s : upto_last c s ++ after_last c s = s.
Proof.
  induction s as [|d r IH]; simpl; [reflexivity|].
  destruct (contains c r); simpl; [now rewrite IH|].
  destruct (Ascii.eqb d c); reflexivity.
Qed.

Lemma after_last_no_sep c s : contains c (after_last c s) = false.
Proof.
  induction s as [|d r IH]; simpl; [reflexivity|].
  destruct (contains c r) eqn:E; [exact IH|].
  destruct (Ascii.eqb d c) eqn:D; [exact E|].
  simpl. now rewrite (Ascii.eqb_sym c d), D, E.
Qed.

Lemma upto_last_none c s : contains c s = false -> upto_last c s = "".
Proof.
  induction s as [|d r IH]; simpl; [reflexivity|].
  rewrite (Ascii.eqb_sym c d).
  destruct (Ascii.eqb d c); simpl; [discriminate|].
  intros H. now rewrite H.
Qed.

Lemma after_last_none c s : contains c s = false -> after_last c s = s.
Proof.
  intros H. rewrite <- (upto_after c s) at 2. now rewrite upto_last_none.
Qed.

(** Up to the last separator: something, then the separator. *)
Lemma upto_last_some c s :
  contains c s = true -> exists a, upto_last c s = a ++ String c "".
Proof.
  induction s as [|d r IH]; simpl; [discriminate|].
  destruct (contains c r) eqn:E.
  - intros _. destruct (IH eq_refl) as [a ->]. now exists (String d a).
  - rewrite orb_false_r. intros D. apply Ascii.eqb_eq in D. subst d.
    rewrite Ascii.eqb_refl. now exists "".
Qed.

Lemma after_last_app_sep c a x :
  contains c x = false -> after_last c (a ++ String c x) = x.
Proof.
  intros Hx. induction a as [|d r IH]; simpl.
  - now rewrite Hx, Ascii.eqb_refl.
  - rewrite contains_app. simpl. rewrite Ascii.eqb_refl, orb_true_r. exact IH.
Qed.

Lemma upto_last_app_sep c a x :
  contains c x = false -> upto_last c (a ++ String c x) = a ++ String c "".
Proof.
  intros Hx. induction a as [|d r IH]; simpl.
  - now rewrite Hx, Ascii.eqb_refl.
  - rewrite contains_app. simpl. rewrite Ascii.eqb_refl, orb_true_r.
    now rewrite IH.
Qed.

(** [rstrip] takes a run of the character off the end. *)
Lemma rstrip_spec c s :
  exists t, s = rstrip c s ++ t /\ all_char c t = true.
Proof.
  induction s as [|d r IH]; simpl.
  - now exists "".
  - destruct IH as (t & E & A).
    destruct (rstrip c r) as [|e r'] eqn:R.
    + simpl in E. subst r. destruct (Ascii.eqb d c) eqn:D.
      * exists (String d t). simpl. now rewrite D, A.
      * now exists t.
    + exists t. split; [simpl; f_equal; exact E|exact A].
Qed.

Lemma all_char_contains c s :
  all_char c s = true -> s <> "" -> contains c s = true.
Proof.
  destruct s as [|d r]; simpl; [congruence|].
  intros H _. apply andb_true_iff in H as [D _].
  now rewrite (Ascii.eqb_sym c d), D.
Qed.

Lemma last_char_app_sep c a : last_char (a ++ String c "") = Some c.
Proof.
  induction a as [|d r IH]; simpl; [reflexivity|].
  rewrite IH. destruct (r ++ String c ""); [discriminate|reflexivity].
Qed.

Lemma last_char_no_sep c s :
  contains c s = false -> endswith_char c s = false.
Proof.
  unfold endswith_char.
  induction s as [|d r IH]; simpl; [reflexivity|].
  intros H. apply orb_false_iff in H as [D H].
  destruct r as [|e r']; [exact D|]. exact (IH H).
Qed.

Lemma last_char_app a b : b <> "" -> last_char (a ++ b) = last_char b.
Proof.
  intros Hb. induction a as [|d r IH]; simpl; [reflexivity|].
  rewrite IH. destruct (r ++ b) eqn:E; [|reflexivity].
  apply append_eq_nil in E. tauto.
Qed.

Lemma prefix_nil s : String.prefix "" s = true.
Proof. now destruct s. Qed.

End StrFacts.

Module PathFacts.

Import PyStr StrFacts.

Local Open Scope list_scope.

Lemma components_nil : OS.components "" = [].
Proof. reflexivity. Qed.

Lemma components_app_sep a b :
  OS.components (a ++ String "/" b)%string = OS.components a ++ OS.components b.
Proof. unfold OS.components. now rewrite split_app_sep, filter_app. Qed.

Lemma components_no_sep s :
  contains "/" s = false ->
  OS.components s = if String.eqb s "" then [] else [s].
Proof.
  intros H. unfold OS.components. rewrite (split_no_sep _ _ H). simpl.
  now destruct (String.eqb s "").
Qed.

Lemma components_slashes t : all_char "/" t = true -> OS.components t = [].
Proof.
  induction t as [|d r IH]; [reflexivity|].
  cbn [all_char]. intros H. apply andb_true_iff in H as [D A].
  apply Ascii.eqb_eq in D. subst d.
  change (String "/" r) with ("" ++ String "/" r)%string.
  now rewrite components_app_sep, (IH A).
Qed.

Lemma components_app_slashes x t :
  all_char "/" t = true -> OS.components (x ++ t)%string = OS.components x.
Proof.
  destruct t as [|d r]; [now rewrite append_nil_r|].
  cbn [all_char]. intros H. apply andb_true_iff in H as [D A].
  apply Ascii.eqb_eq in D. subst d.
  now rewrite components_app_sep, (components_slashes _ A), app_nil_r.
Qed.

Lemma components_rstrip s : OS.components (rstrip "/" s) = OS.components s.
Proof.
  destruct (rstrip_spec "/" s) as (t & E & A).
  rewrite E at 2. now rewrite components_app_slashes.
Qed.

(** No component is empty or holds a slash. *)
Lemma split_parts c s x : In x (split c s) -> contains c x = false.
Proof.
  revert x. induction s as [|d r IH]; simpl; intros x.
  - intros [<-|[]]. reflexivity.
  - destruct (Ascii.eqb d c) eqn:D.
    + intros [<-|H]; [reflexivity|auto].
    + destruct (split c r) as [|w ws] eqn:E; simpl.
      * intros [<-|[]]. simpl. now rewrite (Ascii.eqb_sym c d), D.
      * intros [<-|H].
        -- simpl. rewrite (Ascii.eqb_sym c d), D. simpl. apply IH. now left.
        -- apply IH. now right.
Qed.

Lemma components_parts path x :
  In x (OS.components path) -> x <> ""%string /\ contains "/" x = false.
Proof.
  unfold OS.components. intros H. apply filter_In in H as [H N]. split.
  - intros ->. discriminate.
  - exact (split_parts _ _ _ H).
Qed.

Lemma dirname_components p :
  OS.components (PosixPath.dirname p) = OS.components (upto_last "/" p).
Proof.
  unfold PosixPath.dirname.
  destruct (negb (String.eqb (upto_last "/" p) "")
            && negb (all_char "/" (upto_last "/" p)));
    [apply components_rstrip|reflexivity].
Qed.

(** The components of a path are those of its directory part and then its
    last name, if it has one. *)
Lemma components_split p :
  OS.components p
  = OS.components (PosixPath.dirname p)
      ++ (if String.eqb (PosixPath.basename p) "" then [] else [PosixPath.basename p]).
Proof.
  rewrite dirname_components. unfold PosixPath.basename.
  rewrite <- (components_no_sep _ (after_last_no_sep "/" p)).
  destruct (contains "/" p) eqn:C.
  - destruct (upto_last_some _ _ C) as [a E].
    rewrite <- (upto_after "/" p) at 1. rewrite E.
    rewrite append_assoc. cbn [String.append].
    rewrite !components_app_sep. rewrite components_nil, app_nil_r. reflexivity.
  - now rewrite (upto_last_none _ _ C), (after_last_none _ _ C).
Qed.

Lemma dirname_prefix p : exists rest, p = (PosixPath.dirname p ++ rest)%string.
Proof.
  unfold PosixPath.dirname.
  destruct (negb (String.eqb (upto_last "/" p) "")
            && negb (all_char "/" (upto_last "/" p))).
  - destruct (rstrip_spec "/" (upto_last "/" p)) as (t & E & _).
    exists (t ++ after_last "/" p)%string.
    rewrite <- append_assoc, <- E. symmetry. apply upto_after.
  - exists (after_last "/" p). symmetry. apply upto_after.
Qed.

Lemma dirname_length p :
  (String.length (PosixPath.dirname p) <= String.length p)%nat.
Proof.
  destruct (dirname_prefix p) as [rest E]. rewrite E at 2.
  rewrite length_append. lia.
Qed.

(** The directory part of a path with a last name is shorter. *)
Lemma dirname_shorter p :
  PosixPath.basename p <> ""%string ->
  (String.length (PosixPath.dirname p) < String.length p)%nat.
Proof.
  intros Hb.
  assert (H1 : (String.length (PosixPath.dirname p)
                <= String.length (upto_last "/" p))%nat).
  { unfold PosixPath.dirname.
    destruct (negb (String.eqb (upto_last "/" p) "")
              && negb (all_char "/" (upto_last "/" p))); [|lia].
    destruct (rstrip_spec "/" (upto_last "/" p)) as (t & E & _).
    rewrite E at 2. rewrite length_append. lia. }
  assert (H2 : String.length p
               = (String.length (upto_last "/" p)
                  + String.length (PosixPath.basename p))%nat).
  { rewrite <- length_append. unfold PosixPath.basename. now rewrite upto_after. }
  destruct (PosixPath.basename p) as [|d r]; [congruence|]. simpl in H2. lia.
Qed.

Lemma dirname_has_nul p :
  has_nul p = false -> has_nul (PosixPath.dirname p) = false.
Proof.
  unfold has_nul. destruct (dirname_prefix p) as [rest E].
  rewrite E at 1. rewrite contains_app. intros H.
  now apply orb_false_iff in H.
Qed.

Lemma isabs_app a b : a <> ""%string -> PosixPath.isabs (a ++ b) = PosixPath.isabs a.
Proof.
  destruct a as [|d r]; [congruence|]. intros _.
  unfold PosixPath.isabs, startswith. cbn [String.append String.prefix].
  destruct (ascii_dec "/" d); [now rewrite !prefix_nil|reflexivity].
Qed.

Lemma isabs_dirname p :
  PosixPath.dirname p <> ""%string ->
  PosixPath.isabs (PosixPath.dirname p) = PosixPath.isabs p.
Proof.
  intros H. destruct (dirname_prefix p) as [rest E].
  rewrite E at 2. symmetry. now apply isabs_app.
Qed.

(** A path that does not end in a slash ends in a name. *)
Lemma basename_not_nil p :
  p <> ""%string -> OS.trailing_slash p = false -> PosixPath.basename p <> ""%string.
Proof.
  unfold OS.trailing_slash, endswith_char, PosixPath.basename.
  intros Hp Ht Hb.
  destruct (contains "/" p) eqn:C.
  - destruct (upto_last_some _ _ C) as [a E].
    rewrite <- (upto_after "/" p), Hb, append_nil_r, E, last_char_app_sep in Ht.
    discriminate.
  - rewrite (after_last_none _ _ C) in Hb. contradiction.
Qed.

Lemma trailing_slash_basename p :
  PosixPath.basename p <> ""%string -> OS.trailing_slash p = false.
Proof.
  unfold OS.trailing_slash, endswith_char, PosixPath.basename. intros Hb.
  rewrite <- (upto_after "/" p), (last_char_app _ _ Hb).
  exact (last_char_no_sep _ _ (after_last_no_sep "/" p)).
Qed.

End PathFacts.

(** ** Path resolution *)

Module OSFacts.

Import FSFacts PathFacts.

Local Open Scope list_scope.

Lemma walk_app root cur l r :
  OS.walk root cur (l ++ r)
  = match OS.walk root cur l with
    | inl e => inl e
    | inr cur' => OS.walk root cur' r
    end.
Proof.
  revert cur. induction l as [|c l IH]; intros cur; simpl; [reflexivity|].
  destruct (OS.step root cur c); auto.
Qed.

(** A walk from a directory ends in a directory. *)
Lemma step_is_dir root cur c cur' :
  FS.is_dir cur root = true -> OS.step root cur c = inr cur' ->
  FS.is_dir cur' root = true.
Proof.
  unfold OS.step. intros Hd.
  destruct (String.eqb c "."). { intros H; inversion H; subst; auto. }
  destruct (String.eqb c "..").
  { intros H; inversion H; subst. now apply is_dir_removelast. }
  destruct (Nat.ltb _ _); [discriminate|].
  unfold FS.is_dir.
  destruct (FS.find (cur ++ [c]) root) as [[s|es]|] eqn:F; try discriminate.
  intros H; inversion H; subst. now rewrite F.
Qed.

Lemma walk_is_dir root comps : forall cur cur',
  FS.is_dir cur root = true -> OS.walk root cur comps = inr cur' ->
  FS.is_dir cur' root = true.
Proof.
  induction comps as [|c r IH]; intros cur cur' Hd; simpl.
  - intros H; inversion H; subst; auto.
  - destruct (OS.step root cur c) as [e|cur1] eqn:S; [discriminate|].
    apply IH. exact (step_is_dir _ _ _ _ Hd S).
Qed.

Lemma start_is_dir root cwd path cur :
  OS.start root cwd path = inr cur -> FS.is_dir cur root = true.
Proof.
  unfold OS.start. destruct root as [s|es]; [discriminate|].
  destruct (PosixPath.isabs path). { intros H; inversion H; reflexivity. }
  destruct (OS.walk (Dir es) [] (OS.components cwd)) as [e|c] eqn:W; [discriminate|].
  intros H; inversion H; subst.
  exact (walk_is_dir (Dir es) _ [] _ eq_refl W).
Qed.

Lemma start_isabs root cwd p q :
  PosixPath.isabs p = PosixPath.isabs q -> OS.start root cwd p = OS.start root cwd q.
Proof. unfold OS.start. now intros ->. Qed.

Section Kept.

(** A change of the tree that removes no directory. *)
Variables root root' : node.
Hypothesis kept : forall p, FS.is_dir p root = true -> FS.is_dir p root' = true.

Lemma step_kept cur c cur' :
  OS.step root cur c = inr cur' -> OS.step root' cur c = inr cur'.
Proof.
  unfold OS.step.
  destruct (String.eqb c "."); [auto|].
  destruct (String.eqb c ".."); [auto|].
  destruct (Nat.ltb _ _); [discriminate|].
  destruct (FS.find (cur ++ [c]) root) as [[s|es]|] eqn:F; try discriminate.
  intros H; inversion H; subst.
  assert (D : FS.is_dir (cur ++ [c]) root' = true).
  { apply kept. unfold FS.is_dir. now rewrite F. }
  unfold FS.is_dir in D.
  destruct (FS.find (cur ++ [c]) root') as [[s'|es']|]; try discriminate.
  reflexivity.
Qed.

Lemma walk_kept comps : forall cur cur',
  OS.walk root cur comps = inr cur' -> OS.walk root' cur comps = inr cur'.
Proof.
  induction comps as [|c r IH]; intros cur cur'; simpl; [auto|].
  destruct (OS.step root cur c) as [e|cur1] eqn:S; [discriminate|].
  rewrite (step_kept _ _ _ S). apply IH.
Qed.

End Kept.

Lemma start_kept root root' cwd path cur :
  (forall p, FS.is_dir p root = true -> FS.is_dir p root' = true) ->
  OS.start root cwd path = inr cur -> OS.start root' cwd path = inr cur.
Proof.
  intros kept H.
  assert (D : FS.is_dir [] root' = true).
  { apply kept. apply (is_dir_app_l [] cur). exact (start_is_dir _ _ _ _ H). }
  revert H. unfold OS.start.
  destruct (PosixPath.isabs path).
  { destruct root; [discriminate|]. destruct root'; [discriminate|]. auto. }
  destruct (OS.walk root [] (OS.components cwd)) as [e|c] eqn:W.
  { destruct root; discriminate. }
  rewrite (walk_kept _ _ kept _ _ _ W).
  destruct root; [discriminate|]. destruct root'; [discriminate|]. auto.
Qed.

(** The components of a path, as [namei] takes them: all but the last, and
    the last. *)
Lemma components_last path :
  OS.components path <> [] ->
  OS.components path
  = removelast (OS.components path) ++ [last (OS.components path) ""%string]
  /\ last (OS.components path) ""%string <> ""%string.
Proof.
  intros H. assert (E := app_removelast_last ""%string H). split; [exact E|].
  apply (components_parts path). rewrite E at 2. apply in_or_app. right. now left.
Qed.

Lemma components_last_nil path :
  OS.components path = [] -> last (OS.components path) ""%string = ""%string.
Proof. now intros ->. Qed.

(** [namei] once the start and the walk are known. *)
Lemma namei_eq root cwd path cur0 cur :
  path <> ""%string -> Nat.leb OS.path_max (String.length path) = false ->
  OS.start root cwd path = inr cur0 ->
  OS.walk root cur0 (removelast (OS.components path)) = inr cur ->
  OS.namei root cwd path
  = let c := last (OS.components path) ""%string in
    if String.eqb c "" then OS.found root cur
    else if OS.is_dot c then
           match OS.step root cur c with
           | inl e => inl e
           | inr loc => OS.found root loc
           end
         else if Nat.ltb OS.name_max (String.length c) then inl FileNameTooLong
              else match FS.find (cur ++ [c]) root with
                   | Some n => inr (OS.Found (cur ++ [c]) n)
                   | None => inr (OS.Absent cur c)
                   end.
Proof.
  intros Hp Hl Hs Hw. unfold OS.namei.
  apply String.eqb_neq in Hp. now rewrite Hp, Hl, Hs, Hw.
Qed.

(** What [namei] has done when it returns. *)
Lemma namei_ok root cwd path t :
  OS.namei root cwd path = inr t ->
  path <> ""%string /\ Nat.leb OS.path_max (String.length path) = false /\
  exists cur0 cur,
    OS.start root cwd path = inr cur0 /\
    OS.walk root cur0 (removelast (OS.components path)) = inr cur.
Proof.
  unfold OS.namei.
  destruct (String.eqb path "") eqn:Hp; [discriminate|].
  destruct (Nat.leb OS.path_max (String.length path)) eqn:Hl; [discriminate|].
  destruct (OS.start root cwd path) as [e|cur0] eqn:Hs; [discriminate|].
  destruct (OS.walk root cur0 _) as [e|cur] eqn:Hw; [discriminate|].
  intros _. apply String.eqb_neq in Hp. eauto 6.
Qed.

Lemma found_dir root loc :
  FS.is_dir loc root = true ->
  exists es, OS.found root loc = inr (OS.Found loc (Dir es))
             /\ FS.find loc root = Some (Dir es).
Proof.
  unfold FS.is_dir, OS.found.
  destruct (FS.find loc root) as [[s|es]|]; try discriminate. eauto.
Qed.

(** The walk of a whole path, when it is a directory; and back. *)
Lemma stat_dir_walk root cwd path es :
  OS.stat root cwd path = inr (Dir es) ->
  exists cur0 loc,
    OS.start root cwd path = inr cur0 /\
    OS.walk root cur0 (OS.components path) = inr loc /\
    FS.find loc root = Some (Dir es).
Proof.
  unfold OS.stat. destruct (OS.namei root cwd path) as [e|t] eqn:N; [discriminate|].
  destruct (namei_ok _ _ _ _ N) as (Hp & Hl & cur0 & cur & Hs & Hw).
  rewrite (namei_eq _ _ _ _ _ Hp Hl Hs Hw) in N. cbv zeta in N.
  assert (Hd : FS.is_dir cur root = true).
  { exact (walk_is_dir _ _ _ _ (start_is_dir _ _ _ _ Hs) Hw). }
  destruct (OS.components path) as [|c0 cs] eqn:C.
  - simpl in N, Hw. inversion Hw; subst cur.
    unfold OS.found in N.
    destruct (FS.find cur0 root) as [n|] eqn:F; [|discriminate].
    inversion N; subst t. destruct n as [s|es']; [destruct (OS.trailing_slash path); discriminate|].
    intros H; inversion H; subst. exists cur0, cur0. auto.
  - assert (Hne : OS.components path <> []) by (rewrite C; discriminate).
    destruct (components_last _ Hne) as [E Hc]. rewrite C in E, Hc.
    set (c := last (c0 :: cs) ""%string) in *.
    intros Hst. exists cur0. rewrite E, walk_app, Hw. cbn [OS.walk].
    apply String.eqb_neq in Hc. rewrite Hc in N.
    unfold OS.step. unfold OS.is_dot, OS.step in N.
    destruct (String.eqb c ".") eqn:D1; cbn [orb] in N.
    { unfold OS.found in N.
      destruct (FS.find cur root) as [n|] eqn:F; [|discriminate].
      inversion N; subst t.
      destruct n as [s|es']; [destruct (OS.trailing_slash path); discriminate|].
      inversion Hst; subst. eauto. }
    destruct (String.eqb c "..") eqn:D2.
    { unfold OS.found in N.
      destruct (FS.find (removelast cur) root) as [n|] eqn:F; [|discriminate].
      inversion N; subst t.
      destruct n as [s|es']; [destruct (OS.trailing_slash path); discriminate|].
      inversion Hst; subst. eauto. }
    destruct (Nat.ltb OS.name_max (String.length c)); [discriminate|].
    destruct (FS.find (cur ++ [c]) root) as [n|] eqn:F.
    + inversion N; subst t.
      destruct n as [s|es']; [destruct (OS.trailing_slash path); discriminate|].
      inversion Hst; subst. eauto.
    + inversion N; subst t. discriminate.
Qed.

Lemma walk_stat_dir root cwd path cur0 loc :
  path <> ""%string -> Nat.leb OS.path_max (String.length path) = false ->
  OS.start root cwd path = inr cur0 ->
  OS.walk root cur0 (OS.components path) = inr loc ->
  exists es, OS.stat root cwd path = inr (Dir es)
             /\ OS.namei root cwd path = inr (OS.Found loc (Dir es)).
Proof.
  intros Hp Hl Hs Hw.
  assert (Hd0 := start_is_dir _ _ _ _ Hs).
  assert (Hd := walk_is_dir _ _ _ _ Hd0 Hw).
  unfold OS.stat.
  destruct (OS.components path) as [|c0 cs] eqn:C.
  - simpl in Hw. inversion Hw; subst loc.
    rewrite (namei_eq _ _ _ cur0 cur0 Hp Hl Hs); [|now rewrite C].
    rewrite C. simpl. destruct (found_dir _ _ Hd) as (es & -> & _). eauto.
  - assert (Hne : OS.components path <> []) by (rewrite C; discriminate).
    destruct (components_last _ Hne) as [E Hc]. rewrite C in E, Hc.
    set (c := last (c0 :: cs) ""%string) in *.
    rewrite E, walk_app in Hw.
    destruct (OS.walk root cur0 (removelast (c0 :: cs))) as [e|cur] eqn:W;
      [discriminate|].
    cbn [OS.walk] in Hw.
    rewrite (namei_eq _ _ _ cur0 cur Hp Hl Hs); [|now rewrite C].
    rewrite C. cbv zeta. fold c.
    apply String.eqb_neq in Hc. rewrite Hc.
    destruct (OS.step root cur c) as [e|loc'] eqn:S; [discriminate|].
    inversion Hw; subst loc'.
    unfold OS.is_dot. unfold OS.step in S.
    destruct (String.eqb c ".") eqn:D1; cbn [orb].
    { destruct (found_dir _ _ Hd) as (es & -> & _). eauto. }
    destruct (String.eqb c "..") eqn:D2.
    { destruct (found_dir _ _ Hd) as (es & -> & _). eauto. }
    destruct (Nat.ltb OS.name_max (String.length c)); [discriminate|].
    destruct (FS.find (cur ++ [c]) root) as [[s|es]|] eqn:F; try discriminate.
    inversion S; subst loc. eauto.
Qed.

(** What is there cannot be made. *)
Lemma mkdir_exists root cwd path n :
  OS.stat root cwd path = inr n -> OS.mkdir root cwd path = inl FileExistsError.
Proof.
  unfold OS.stat, OS.mkdir.
  destruct (OS.namei root cwd path) as [e|[loc m|cur c]]; try discriminate.
  reflexivity.
Qed.

End OSFacts.

(** ** The [os] module *)

Module PyOsFacts.

Import FSFacts PathFacts OSFacts.

Local Open Scope list_scope.

(** A call on a path leaves the working directory and the trace alone, and
    what it raises is not the script's [ValueError]. *)
Lemma change_frame path call w r w' :
  change path call w = (r, w') ->
  w_cwd w' = w_cwd w /\ w_trace w' = w_trace w /\
  match r with Ok _ => True | Raise e => not_value_error e /\ w' = w end.
Proof.
  unfold change. destruct (has_nul path).
  { intros H; inversion H; subst; simpl; auto. }
  destruct (call _ _ _) as [e|root'];
    intros H; inversion H; subst; simpl; auto.
Qed.

Lemma change_ok path call w w' :
  change path call w = (Ok tt, w') ->
  has_nul path = false /\
  exists root', call (w_root w) (w_cwd w) path = inr root' /\
                w' = mkWorld (w_cwd w) root' (w_trace w).
Proof.
  unfold change. destruct (has_nul path); [discriminate|].
  destruct (call _ _ _) as [e|root']; [discriminate|].
  intros H; inversion H; subst. eauto.
Qed.

Lemma stat_dir_ok path w es :
  stat path w = Ok (Dir es) ->
  has_nul path = false /\ OS.stat (w_root w) (w_cwd w) path = inr (Dir es).
Proof.
  unfold stat. destruct (has_nul path); [discriminate|].
  destruct (OS.stat _ _ _) as [e|n]; [discriminate|].
  intros H; inversion H; subst. auto.
Qed.

Lemma path_isdir_ok path w :
  path_isdir path w = true ->
  has_nul path = false /\
  exists es, OS.stat (w_root w) (w_cwd w) path = inr (Dir es).
Proof.
  unfold path_isdir. destruct (stat path w) as [[s|es]|e] eqn:S; try discriminate.
  intros _. destruct (stat_dir_ok _ _ _ S). eauto.
Qed.

Lemma path_isdir_of_stat path w es :
  has_nul path = false -> OS.stat (w_root w) (w_cwd w) path = inr (Dir es) ->
  path_isdir path w = true /\ path_exists path w = true.
Proof.
  intros Hn Hs. unfold path_isdir, path_exists, stat. now rewrite Hn, Hs.
Qed.

(** ** [os.makedirs] *)

(** ** [os.makedirs] *)

Lemma makedirs_from_eq depth name w :
  makedirs_from depth name w
  = let '(head, tail) := head_tail name in
    if negb (String.eqb head "") && negb (String.eqb tail "")
       && negb (path_exists head w)
    then
      match depth with
      | O => (Raise RecursionError, w)
      | S depth' =>
          let '(r, w1) :=
            match makedirs_from depth' head w with
            | (Raise (OSError FileExistsError _), w1) => (Ok tt, w1)
            | rw => rw
            end in
          match r with
          | Raise e => (Raise e, w1)
          | Ok _ => if String.eqb tail "." then (Ok tt, w1)
                    else mkdir_exist_ok name w1
          end
      end
    else mkdir_exist_ok name w.
Proof. destruct depth; reflexivity. Qed.

(** The head is the beginning of the name, and with the tail it has the
    components of the name. *)
Lemma head_tail_spec name head tail :
  head_tail name = (head, tail) ->
  OS.components name
  = OS.components head ++ (if String.eqb tail "" then [] else [tail]) /\
  (exists rest, name = (head ++ rest)%string) /\
  (tail <> ""%string -> (String.length head < String.length name)%nat).
Proof.
  unfold head_tail, PosixPath.split.
  destruct (String.eqb (PosixPath.basename name) "") eqn:B.
  - intros H; inversion H; subst. split; [|split].
    + rewrite (components_split name), B, app_nil_r.
      apply components_split.
    + destruct (dirname_prefix name) as [r1 E1].
      destruct (dirname_prefix (PosixPath.dirname name)) as [r2 E2].
      exists (r2 ++ r1)%string. rewrite <- StrFacts.append_assoc, <- E2. exact E1.
    + intros Ht. apply dirname_shorter in Ht.
      assert (L := dirname_length name). lia.
  - intros H; inversion H; subst. split; [|split].
    + apply components_split.
    + apply dirname_prefix.
    + intros Ht. now apply dirname_shorter.
Qed.

Lemma mkdir_exist_ok_isdir name w :
  path_isdir name w = true -> mkdir_exist_ok name w = (Ok tt, w).
Proof.
  intros H. destruct (path_isdir_ok _ _ H) as (Hn & es & Hs).
  unfold mkdir_exist_ok, mkdir, change.
  now rewrite Hn, (mkdir_exists _ _ _ _ Hs), H.
Qed.

Lemma leb_path_max_prefix a b :
  Nat.leb OS.path_max (String.length (a ++ b)) = false ->
  Nat.leb OS.path_max (String.length a) = false.
Proof.
  rewrite StrFacts.length_append, !Nat.leb_gt. lia.
Qed.

(** Where a name is a directory, so is every head of it. *)
Lemma path_isdir_head name head tail w :
  head_tail name = (head, tail) -> head <> ""%string ->
  path_isdir name w = true ->
  path_isdir head w = true /\ path_exists head w = true.
Proof.
  intros Hht Hh H. destruct (path_isdir_ok _ _ H) as (Hn & es & Hs).
  destruct (head_tail_spec _ _ _ Hht) as (Hc & (rest & E) & _).
  destruct (stat_dir_walk _ _ _ _ Hs) as (cur0 & loc & Hst & Hw & _).
  assert (Hl : Nat.leb OS.path_max (String.length name) = false).
  { unfold OS.stat in Hs.
    destruct (OS.namei (w_root w) (w_cwd w) name) as [e|t] eqn:N; [discriminate|].
    now destruct (namei_ok _ _ _ _ N) as (_ & Hl & _). }
  rewrite Hc, walk_app in Hw.
  destruct (OS.walk (w_root w) cur0 (OS.components head)) as [e|loc'] eqn:W;
    [discriminate|].
  assert (Hst' : OS.start (w_root w) (w_cwd w) head = inr cur0).
  { rewrite <- Hst. apply start_isabs. rewrite E. symmetry. now apply isabs_app. }
  assert (Hl' : Nat.leb OS.path_max (String.length head) = false).
  { rewrite E in Hl. exact (leb_path_max_prefix _ _ Hl). }
  destruct (walk_stat_dir _ _ _ _ _ Hh Hl' Hst' W) as (es' & Hs' & _).
  apply (path_isdir_of_stat _ _ es'); [|exact Hs'].
  unfold has_nul in *. rewrite E, StrFacts.contains_app in Hn.
  now apply orb_false_iff in Hn.
Qed.

(** On a directory that is there, [makedirs] does nothing. *)
Lemma makedirs_noop depth name w :
  path_isdir name w = true -> makedirs_from depth name w = (Ok tt, w).
Proof.
  intros H. rewrite makedirs_from_eq.
  destruct (head_tail name) as [head tail] eqn:Hht.
  destruct (String.eqb head "") eqn:Hh; cbn [negb andb].
  - now apply mkdir_exist_ok_isdir.
  - apply String.eqb_neq in Hh.
    destruct (path_isdir_head _ _ _ _ Hht Hh H) as [_ ->].
    rewrite andb_false_r. now apply mkdir_exist_ok_isdir.
Qed.

Lemma mkdir_exist_ok_frame name w r w' :
  mkdir_exist_ok name w = (r, w') ->
  w_cwd w' = w_cwd w /\ w_trace w' = w_trace w /\
  (forall p, FS.is_dir p (w_root w) = true -> FS.is_dir p (w_root w') = true) /\
  match r with Ok _ => True | Raise e => not_value_error e end.
Proof.
  unfold mkdir_exist_ok, mkdir, change, OS.mkdir.
  destruct (has_nul name). { intros H; inversion H; subst; simpl; auto. }
  destruct (OS.namei _ _ name) as [e|[loc n|cur c]].
  - destruct (path_isdir name w); intros H; inversion H; subst; simpl; auto.
  - destruct (path_isdir name w); intros H; inversion H; subst; simpl; auto.
  - destruct (FS.mkdir (cur ++ [c]) (w_root w)) as [e|root'] eqn:Mk.
    + destruct (path_isdir name w); intros H; inversion H; subst; simpl; auto.
    + intros H; inversion H; subst; simpl.
      repeat split; auto. exact (mkdir_keeps_dirs _ _ _ Mk).
Qed.

(** [makedirs] leaves the working directory and the trace alone, removes no
    directory, and what it raises is not the script's [ValueError]. *)
Lemma makedirs_frame depth : forall name w r w',
  makedirs_from depth name w = (r, w') ->
  w_cwd w' = w_cwd w /\ w_trace w' = w_trace w /\
  (forall p, FS.is_dir p (w_root w) = true -> FS.is_dir p (w_root w') = true) /\
  match r with Ok _ => True | Raise e => not_value_error e end.
Proof.
  induction depth as [|d IH]; intros name w r w'; rewrite makedirs_from_eq;
    destruct (head_tail name) as [head tail];
    (destruct (negb (String.eqb head "") && negb (String.eqb tail "")
               && negb (path_exists head w)); [|apply mkdir_exist_ok_frame]).
  - intros H; inversion H; subst; simpl; auto.
  - destruct (makedirs_from d head w) as [r1 w1] eqn:R.
    destruct (IH _ _ _ _ R) as (C1 & T1 & K1 & N1).
    assert (Hnext : forall r2, (if String.eqb tail "." then (Ok tt, w1)
                                else mkdir_exist_ok name w1) = (r2, w') ->
              w_cwd w' = w_cwd w /\ w_trace w' = w_trace w /\
              (forall p, FS.is_dir p (w_root w) = true ->
                         FS.is_dir p (w_root w') = true) /\
              match r2 with Ok _ => True | Raise e => not_value_error e end).
    { intros r2. destruct (String.eqb tail ".").
      - intros H; inversion H; subst. repeat split; auto.
      - intros H. destruct (mkdir_exist_ok_frame _ _ _ _ H) as (C2 & T2 & K2 & N2).
        rewrite C2, T2. repeat split; auto. }
    destruct r1 as [[]|e]; [apply Hnext|].
    assert (Hraise : (Raise e, w1) = (r, w') ->
              w_cwd w' = w_cwd w /\ w_trace w' = w_trace w /\
              (forall p, FS.is_dir p (w_root w) = true ->
                         FS.is_dir p (w_root w') = true) /\
              match r with Ok _ => True | Raise e => not_value_error e end).
    { intros H; inversion H; subst. repeat split; auto. }
    destruct e as [m|k| |e p| |]; try exact Hraise.
    destruct e; try exact Hraise. apply Hnext.
Qed.

(** The length of the name is depth enough: more is never used. *)
Lemma makedirs_depth d1 : forall d2 name w,
  (String.length name <= d1)%nat -> (String.length name <= d2)%nat ->
  makedirs_from d1 name w = makedirs_from d2 name w.
Proof.
  induction d1 as [|d1 IH]; intros d2 name w L1 L2; rewrite !makedirs_from_eq;
    destruct (head_tail name) as [head tail] eqn:Hht;
    destruct (head_tail_spec _ _ _ Hht) as (_ & _ & Hlt);
    (destruct (String.eqb head "") eqn:Hh; cbn [negb andb]; [reflexivity|]);
    (destruct (String.eqb tail "") eqn:Ht; cbn [negb andb]; [reflexivity|]);
    (destruct (path_exists head w); cbn [negb]; [reflexivity|]);
    apply String.eqb_neq in Ht; specialize (Hlt Ht).
  - lia.
  - destruct d2 as [|d2]; [lia|].
    rewrite (IH d2 head w); [reflexivity|lia|lia].
Qed.

(** ** [open] for writing *)

Lemma open_w_ok root cwd path c root' :
  OS.open_w root cwd path c = inr root' ->
  path <> ""%string /\ Nat.leb OS.path_max (String.length path) = false /\
  OS.trailing_slash path = false /\
  exists cur0 cur,
    OS.start root cwd path = inr cur0 /\
    OS.walk root cur0 (removelast (OS.components path)) = inr cur /\
    let c0 := last (OS.components path) ""%string in
    c0 <> ""%string /\ OS.is_dot c0 = false /\
    Nat.ltb OS.name_max (String.length c0) = false /\
    FS.is_dir (cur ++ [c0]) root = false /\
    FS.write (cur ++ [c0]) c root = inr root'.
Proof.
  unfold OS.open_w.
  destruct (OS.namei root cwd path) as [e|t] eqn:N; [discriminate|].
  destruct (namei_ok _ _ _ _ N) as (Hp & Hl & cur0 & cur & Hs & Hw).
  rewrite (namei_eq _ _ _ _ _ Hp Hl Hs Hw) in N. cbv zeta in N.
  destruct (OS.trailing_slash path); [discriminate|].
  intros Hwr. split; [exact Hp|]. split; [exact Hl|]. split; [reflexivity|].
  exists cur0, cur. split; [exact Hs|]. split; [exact Hw|]. cbv zeta.
  assert (Hd : FS.is_dir cur root = true).
  { exact (walk_is_dir _ _ _ _ (start_is_dir _ _ _ _ Hs) Hw). }
  set (c0 := last (OS.components path) ""%string) in *.
  destruct (String.eqb c0 "") eqn:E0.
  { destruct (found_dir _ _ Hd) as (es & F & _). rewrite F in N.
    inversion N; subst t. discriminate. }
  destruct (OS.is_dot c0) eqn:Dot.
  { destruct (OS.step root cur c0) as [e|loc] eqn:S; [discriminate|].
    destruct (found_dir _ _ (step_is_dir _ _ _ _ Hd S)) as (es & F & _).
    rewrite F in N. inversion N; subst t. discriminate. }
  destruct (Nat.ltb OS.name_max (String.length c0)); [discriminate|].
  apply String.eqb_neq in E0. unfold FS.is_dir.
  destruct (FS.find (cur ++ [c0]) root) as [[s|es]|] eqn:F;
    inversion N; subst t; try discriminate; auto.
Qed.

(** After the write the file is there with the content, and writing the
    same again changes nothing. *)
Lemma open_w_again root cwd path c root' :
  OS.open_w root cwd path c = inr root' ->
  OS.stat root' cwd path = inr (File c) /\
  OS.open_w root' cwd path c = inr root'.
Proof.
  intros H.
  destruct (open_w_ok _ _ _ _ _ H)
    as (Hp & Hl & Ht & cur0 & cur & Hs & Hw & Hc & Dot & Len & _ & Wr).
  assert (K := write_keeps_dirs _ _ _ _ Wr).
  assert (Hs' := start_kept _ _ _ _ _ K Hs).
  assert (Hw' := walk_kept _ _ K _ _ _ Hw).
  assert (N : OS.namei root' cwd path
              = inr (OS.Found (cur ++ [last (OS.components path) ""%string]) (File c))).
  { rewrite (namei_eq _ _ _ _ _ Hp Hl Hs' Hw'). cbv zeta.
    apply String.eqb_neq in Hc. rewrite Hc, Dot, Len.
    now rewrite (write_find _ _ _ _ Wr). }
  unfold OS.stat, OS.open_w. rewrite N, Ht. split; [reflexivity|].
  exact (write_idem _ _ _ _ Wr).
Qed.

Lemma write_file_again fname c w w' :
  write_file fname c w = (Ok tt, w') ->
  file_content fname w' = Some c /\ write_file fname c w' = (Ok tt, w').
Proof.
  intros H. destruct (change_ok _ _ _ _ H) as (Hn & root' & Ho & ->).
  destruct (open_w_again _ _ _ _ _ Ho) as [S O].
  unfold file_content, stat, write_file, change. cbn [w_root w_cwd w_trace].
  now rewrite Hn, S, O.
Qed.

End PyOsFacts.

(** ** [gen_pwl_data] *)

Lemma pwl_text_eq : Pwl.text = pwl_lines.
Proof. vm_compute. reflexivity. Qed.

Section GenPwlData.

Import FSFacts PathFacts OSFacts PyOsFacts.

Variables (fname : string) (w w' : world).

(** What a run that returns has done. *)
Lemma gen_pwl_data_ok_inv :
  gen_pwl_data fname w = (Ok tt, w') ->
  exists w1,
    makedirs (PosixPath.dirname fname) w = (Ok tt, w1) /\
    write_file fname Pwl.text w1 = (Ok tt, w').
Proof.
  unfold gen_pwl_data, bind.
  destruct (makedirs (PosixPath.dirname fname) w) as [[[]|e] w1]; [|discriminate].
  eauto.
Qed.

Lemma gen_pwl_data_content :
  gen_pwl_data fname w = (Ok tt, w') -> file_content fname w' = Some Pwl.text.
Proof.
  intros H. destruct (gen_pwl_data_ok_inv H) as (w1 & _ & Wr).
  exact (proj1 (write_file_again _ _ _ _ Wr)).
Qed.

(** It prints nothing, calls nothing and stays where it is, and what it
    raises is not the script's [ValueError]. *)
Lemma gen_pwl_data_frame r :
  gen_pwl_data fname w = (r, w') ->
  w_cwd w' = w_cwd w /\ w_trace w' = w_trace w /\
  match r with Ok _ => True | Raise e => not_value_error e end.
Proof.
  unfold gen_pwl_data, bind, makedirs.
  destruct (makedirs_from _ (PosixPath.dirname fname) w) as [r1 w1] eqn:Mk.
  destruct (makedirs_frame _ _ _ _ _ Mk) as (C1 & T1 & _ & N1).
  destruct r1 as [[]|e].
  - intros Wr. destruct (change_frame _ _ _ _ _ Wr) as (C2 & T2 & N2).
    rewrite C2, T2. repeat split; auto. destruct r; tauto.
  - intros H; inversion H; subst. auto.
Qed.

Lemma makedirs_nil : makedirs "" w = (Raise (OSError FileNotFoundError ""), w).
Proof. reflexivity. Qed.

(** After a run that returned, the directory of the file is there. *)
Lemma gen_pwl_data_dir :
  gen_pwl_data fname w = (Ok tt, w') ->
  path_isdir (PosixPath.dirname fname) w' = true.
Proof.
  intros H. destruct (gen_pwl_data_ok_inv H) as (w1 & Mk & Wr).
  assert (Hd : PosixPath.dirname fname <> "").
  { intros E. rewrite E, makedirs_nil in Mk. discriminate. }
  destruct (change_ok _ _ _ _ Wr) as (Hn & root' & Ho & ->).
  destruct (open_w_ok _ _ _ _ _ Ho)
    as (Hp & Hl & Ht & cur0 & cur & Hs & Hw & _ & _ & _ & _ & Wr').
  assert (K := write_keeps_dirs _ _ _ _ Wr').
  assert (Hb := basename_not_nil _ Hp Ht).
  assert (Hc : removelast (OS.components fname)
               = OS.components (PosixPath.dirname fname)).
  { rewrite (components_split fname).
    apply String.eqb_neq in Hb. rewrite Hb. apply removelast_last. }
  rewrite Hc in Hw.
  destruct (dirname_prefix fname) as [rest E].
  assert (Hs' : OS.start root' (w_cwd w1) (PosixPath.dirname fname) = inr cur0).
  { rewrite (start_isabs _ _ _ fname (isabs_dirname _ Hd)).
    exact (start_kept _ _ _ _ _ K Hs). }
  assert (Hl' : Nat.leb OS.path_max (String.length (PosixPath.dirname fname)) = false).
  { rewrite E in Hl. exact (leb_path_max_prefix _ _ Hl). }
  destruct (walk_stat_dir _ _ _ _ _ Hd Hl' Hs' (walk_kept _ _ K _ _ _ Hw))
    as (es & St & _).
  exact (proj1 (path_isdir_of_stat _ (mkWorld (w_cwd w1) root' (w_trace w1)) es
                  (dirname_has_nul _ Hn) St)).
Qed.

(** A second run on the same path finds the directory, writes the same
    text over the file, and leaves the world as the first run left it. *)
Lemma gen_pwl_data_idem :
  gen_pwl_data fname w = (Ok tt, w') -> gen_pwl_data fname w' = (Ok tt, w').
Proof.
  intros H. assert (Hd := gen_pwl_data_dir H).
  destruct (gen_pwl_data_ok_inv H) as (w1 & _ & Wr).
  unfold gen_pwl_data, bind, makedirs.
  rewrite (makedirs_noop _ _ _ Hd).
  exact (proj2 (write_file_again _ _ _ _ Wr)).
Qed.

End GenPwlData.

(** ** [os.makedirs] on a path of plain names *)

Module PlainFacts.

Import FSFacts PathFacts OSFacts PyOsFacts.

Local Open Scope list_scope.

Lemma plain_step root cur c :
  plain_name c = true ->
  OS.step root cur c
  = match FS.find (cur ++ [c]) root with
    | None => inl FileNotFoundError
    | Some (File _) => inl NotADirectoryError
    | Some (Dir _) => inr (cur ++ [c])
    end.
Proof.
  unfold plain_name, OS.is_dot, OS.step. intros H.
  apply andb_true_iff in H as [D L]. apply negb_true_iff, orb_false_iff in D as [D1 D2].
  rewrite D1, D2.
  replace (Nat.ltb OS.name_max (String.length c)) with false; [reflexivity|].
  symmetry. apply Nat.ltb_ge. now apply Nat.leb_le.
Qed.

(** Down a chain of directories, a walk goes where the names say. *)
Lemma walk_plain root l : forall base,
  forallb plain_name l = true -> FS.is_dir (base ++ l) root = true ->
  OS.walk root base l = inr (base ++ l).
Proof.
  induction l as [|c l IH]; intros base Hp Hd; simpl.
  - now rewrite app_nil_r.
  - simpl in Hp. apply andb_true_iff in Hp as [Hc Hp].
    rewrite (plain_step _ _ _ Hc).
    change (c :: l) with ([c] ++ l) in *. rewrite app_assoc in Hd.
    assert (Hd1 := is_dir_app_l _ _ _ Hd). unfold FS.is_dir in Hd1.
    destruct (FS.find (base ++ [c]) root) as [[s|es]|]; try discriminate.
    rewrite (IH _ Hp Hd). now rewrite <- app_assoc.
Qed.

Lemma walk_plain_inv root l : forall base loc,
  forallb plain_name l = true -> OS.walk root base l = inr loc ->
  loc = base ++ l.
Proof.
  induction l as [|c l IH]; intros base loc Hp; simpl.
  - intros H; inversion H. now rewrite app_nil_r.
  - simpl in Hp. apply andb_true_iff in Hp as [Hc Hp].
    rewrite (plain_step _ _ _ Hc).
    destruct (FS.find (base ++ [c]) root) as [[s|es]|]; try discriminate.
    intros H. rewrite (IH _ _ Hp H). now rewrite <- app_assoc.
Qed.

Lemma forallb_removelast {A : Type} (f : A -> bool) (l : list A) :
  forallb f l = true -> forallb f (removelast l) = true.
Proof.
  destruct l as [|x l] using rev_ind; [auto|].
  rewrite removelast_last, forallb_app. intros H.
  now apply andb_true_iff in H.
Qed.

Lemma plain_last cs :
  cs <> [] -> forallb plain_name cs = true ->
  plain_name (last cs ""%string) = true.
Proof.
  intros Hne Hp. rewrite (app_removelast_last ""%string Hne), forallb_app in Hp.
  apply andb_true_iff in Hp as [_ Hp]. simpl in Hp. now rewrite andb_true_r in Hp.
Qed.

Section Plain.

Variables (name : string) (w : world) (base : list string).

Hypothesis Hname : name <> ""%string.
Hypothesis Hnul : has_nul name = false.
Hypothesis Hlen : Nat.leb OS.path_max (String.length name) = false.
Hypothesis Hplain : forallb plain_name (OS.components name) = true.
Hypothesis Hstart : OS.start (w_root w) (w_cwd w) name = inr base.

(** What the path leads to, where the directories on the way are there. *)
Lemma namei_plain :
  FS.is_dir (base ++ removelast (OS.components name)) (w_root w) = true ->
  OS.namei (w_root w) (w_cwd w) name
  = match FS.find (base ++ OS.components name) (w_root w) with
    | Some n => inr (OS.Found (base ++ OS.components name) n)
    | None => inr (OS.Absent (base ++ removelast (OS.components name))
                             (last (OS.components name) ""%string))
    end.
Proof.
  intros Hd.
  assert (Hw := walk_plain _ _ _ (forallb_removelast _ _ Hplain) Hd).
  rewrite (namei_eq _ _ _ _ _ Hname Hlen Hstart Hw). cbv zeta.
  destruct (OS.components name) as [|c0 cs] eqn:C.
  - simpl. simpl in Hd. rewrite app_nil_r in *.
    destruct (found_dir _ _ Hd) as (es & F & F'). now rewrite F, F'.
  - assert (Hne : OS.components name <> []) by (rewrite C; discriminate).
    destruct (components_last _ Hne) as [E Hc]. rewrite C in E, Hc.
    assert (Hpl := plain_last (c0 :: cs) ltac:(discriminate) Hplain).
    set (c := last (c0 :: cs) ""%string) in *.
    apply String.eqb_neq in Hc. rewrite Hc.
    unfold plain_name in Hpl. apply andb_true_iff in Hpl as [D L].
    apply negb_true_iff in D. rewrite D.
    replace (Nat.ltb OS.name_max (String.length c)) with false
      by (symmetry; apply Nat.ltb_ge; now apply Nat.leb_le).
    rewrite <- app_assoc, <- E. reflexivity.
Qed.

(** A path that leads somewhere leads down its names. *)
Lemma stat_plain n :
  OS.stat (w_root w) (w_cwd w) name = inr n ->
  FS.find (base ++ OS.components name) (w_root w) = Some n.
Proof.
  unfold OS.stat.
  destruct (OS.namei (w_root w) (w_cwd w) name) as [e|t] eqn:N; [discriminate|].
  destruct (namei_ok _ _ _ _ N) as (_ & _ & cur0 & cur & Hs & Hw).
  rewrite Hstart in Hs. inversion Hs; subst cur0.
  assert (Hcur := walk_plain_inv _ _ _ _ (forallb_removelast _ _ Hplain) Hw).
  assert (Hd : FS.is_dir (base ++ removelast (OS.components name)) (w_root w) = true).
  { rewrite <- Hcur. exact (walk_is_dir _ _ _ _ (start_is_dir _ _ _ _ Hstart) Hw). }
  rewrite (namei_plain Hd) in N.
  destruct (FS.find (base ++ OS.components name) (w_root w)) as [m|];
    inversion N; subst t; [|discriminate].
  destruct m as [s|es]; [destruct (OS.trailing_slash name)|];
    intros H; inversion H; reflexivity.
Qed.

(** The last step of [makedirs]: the directory is made, or is there. *)
Lemma mkdir_exist_ok_plain :
  FS.is_dir (base ++ removelast (OS.components name)) (w_root w) = true ->
  FS.read (base ++ OS.components name) (w_root w) = None ->
  exists root',
    FS.mkdir_p (base ++ OS.components name) (w_root w) = inr root' /\
    mkdir_exist_ok name w = (Ok tt, mkWorld (w_cwd w) root' (w_trace w)).
Proof.
  intros Hd Hf. assert (N := namei_plain Hd).
  unfold mkdir_exist_ok, mkdir, change, OS.mkdir. rewrite Hnul, N.
  unfold FS.read in Hf.
  destruct (FS.find (base ++ OS.components name) (w_root w)) as [[s|es]|] eqn:F;
    [discriminate| |].
  - exists (w_root w). split.
    + apply mkdir_p_id. unfold FS.is_dir. now rewrite F.
    + unfold path_isdir, stat, OS.stat. rewrite Hnul, N. now destruct w.
  - destruct (OS.components name) as [|c0 cs] eqn:C.
    { simpl in F, Hd. rewrite app_nil_r in F, Hd.
      unfold FS.is_dir in Hd. rewrite F in Hd. discriminate. }
    assert (E := app_removelast_last ""%string (l := c0 :: cs) ltac:(discriminate)).
    set (c := last (c0 :: cs) ""%string) in *.
    set (l := removelast (c0 :: cs)) in *.
    rewrite E, app_assoc in F.
    destruct (mkdir_below _ _ _ Hd F) as (root' & M1 & M2).
    exists root'. rewrite E, app_assoc. rewrite M1. auto.
Qed.

End Plain.

End PlainFacts.

Module MakedirsFacts.

Import PyStr StrFacts FSFacts PathFacts OSFacts PyOsFacts PlainFacts.

Local Open Scope list_scope.

Lemma rstrip_nil c s : rstrip c s = ""%string -> all_char c s = true.
Proof.
  intros H. destruct (rstrip_spec c s) as (t & E & A).
  rewrite H in E. simpl in E. now subst t.
Qed.

Lemma rstrip_end c s : endswith_char c (rstrip c s) = false.
Proof.
  unfold endswith_char.
  induction s as [|d r IH]; simpl; [reflexivity|].
  destruct (rstrip c r) as [|e r'] eqn:R.
  - destruct (Ascii.eqb d c) eqn:D; simpl; [reflexivity|].
    now rewrite Ascii.eqb_sym.
  - exact IH.
Qed.

(** A name whose two splits leave no tail has no component: it is empty or
    all slashes. *)
Lemma head_tail_nil name head :
  head_tail name = (head, ""%string) -> OS.components name = [].
Proof.
  unfold head_tail, PosixPath.split.
  destruct (String.eqb (PosixPath.basename name) "") eqn:B.
  2:{ intros H; inversion H; subst. rewrite H2 in B. discriminate. }
  intros H; inversion H as [[Hh Ht]]; clear H Hh.
  rewrite (components_split name), B, app_nil_r.
  assert (Hcases : (PosixPath.dirname name <> ""%string
                    /\ OS.trailing_slash (PosixPath.dirname name) = false)
                   \/ all_char "/" (PosixPath.dirname name) = true).
  { unfold PosixPath.dirname.
    destruct (negb (String.eqb (upto_last "/" name) "")
              && negb (all_char "/" (upto_last "/" name))) eqn:Cnd.
    - left. apply andb_true_iff in Cnd as [_ Cnd]. apply negb_true_iff in Cnd.
      split; [|apply rstrip_end].
      intros E. apply rstrip_nil in E. congruence.
    - right. apply andb_false_iff in Cnd as [Cnd|Cnd]; apply negb_false_iff in Cnd.
      + apply String.eqb_eq in Cnd. now rewrite Cnd.
      + exact Cnd. }
  destruct Hcases as [[Hne Hts]|Hall].
  - exfalso. exact (basename_not_nil _ Hne Hts Ht).
  - now apply components_slashes.
Qed.

Lemma no_file_on_read l n : FS.no_file_on l n = true -> FS.read l n = None.
Proof.
  intros H. unfold FS.read.
  destruct (FS.find l n) as [[s|es]|] eqn:F; auto.
  assert (D := no_file_on_find _ _ _ H F). unfold FS.is_dir in D.
  rewrite F in D. discriminate.
Qed.

(** For a name made of plain names, with no regular file on the way,
    [makedirs] returns and has made the directories that were missing:
    just what [mkdir_p] makes. *)
Lemma makedirs_plain depth : forall name w base,
  name <> ""%string -> has_nul name = false ->
  Nat.leb OS.path_max (String.length name) = false ->
  forallb plain_name (OS.components name) = true ->
  OS.start (w_root w) (w_cwd w) name = inr base ->
  FS.no_file_on (base ++ OS.components name) (w_root w) = true ->
  (List.length (OS.components name) <= depth)%nat ->
  exists root',
    FS.mkdir_p (base ++ OS.components name) (w_root w) = inr root' /\
    makedirs_from depth name w = (Ok tt, mkWorld (w_cwd w) root' (w_trace w)).
Proof.
  induction depth as [|d IH]; intros name w base Hname Hnul Hlen Hplain Hstart Hfree Hd;
    rewrite makedirs_from_eq;
    destruct (head_tail name) as [head tail] eqn:Hht;
    destruct (head_tail_spec _ _ _ Hht) as (Hc & (rest & E) & Hlt).
  all: assert (Hbase := start_is_dir _ _ _ _ Hstart).
  all: assert (Hread := no_file_on_read _ _ Hfree).
  all: assert (Hlast : FS.is_dir (base ++ removelast (OS.components name)) (w_root w)
                        = true ->
                      exists root',
                        FS.mkdir_p (base ++ OS.components name) (w_root w) = inr root' /\
                        mkdir_exist_ok name w
                        = (Ok tt, mkWorld (w_cwd w) root' (w_trace w)))
         by (intros Hdir;
             exact (mkdir_exist_ok_plain name w base Hname Hnul Hlen Hplain Hstart
                                         Hdir Hread)).
  all: destruct (String.eqb tail "") eqn:Ht;
    [apply String.eqb_eq in Ht; subst tail;
     rewrite andb_false_r; apply Hlast;
     rewrite (head_tail_nil _ _ Hht); simpl; now rewrite app_nil_r|].
  all: destruct (String.eqb head "") eqn:Hh;
    [apply String.eqb_eq in Hh; subst head; cbn [negb andb]; apply Hlast;
     rewrite Hc; simpl; now rewrite app_nil_r|].
  all: apply String.eqb_neq in Hh; cbn [negb andb].
  all: assert (Hplain' : forallb plain_name (OS.components head) = true)
         by (rewrite Hc, forallb_app in Hplain; now apply andb_true_iff in Hplain).
  all: assert (Hnul' : has_nul head = false)
         by (unfold has_nul in *; rewrite E, contains_app in Hnul;
             now apply orb_false_iff in Hnul).
  all: assert (Hlen' : Nat.leb OS.path_max (String.length head) = false)
         by (rewrite E in Hlen; exact (leb_path_max_prefix _ _ Hlen)).
  all: assert (Hstart' : OS.start (w_root w) (w_cwd w) head = inr base)
         by (rewrite <- Hstart; apply start_isabs; rewrite E; symmetry;
             now apply isabs_app).
  all: assert (Hfree' : FS.no_file_on (base ++ OS.components head) (w_root w) = true)
         by (rewrite Hc, app_assoc in Hfree; exact (no_file_on_app_l _ _ _ Hfree)).
  all: assert (Hrl : removelast (OS.components name) = OS.components head)
         by (rewrite Hc; apply removelast_last).
  all: destruct (path_exists head w) eqn:Hex; cbn [negb];
    [apply Hlast; rewrite Hrl;
     unfold path_exists, stat in Hex; rewrite Hnul' in Hex;
     destruct (OS.stat (w_root w) (w_cwd w) head) as [e|n] eqn:St; [discriminate|];
     exact (no_file_on_find _ _ _ Hfree'
              (stat_plain head w base Hh Hlen' Hplain' Hstart' n St))|].
  - exfalso. rewrite Hc, length_app in Hd. simpl in Hd. lia.
  - assert (Hd' : (List.length (OS.components head) <= d)%nat).
    { rewrite Hc, length_app in Hd. simpl in Hd. lia. }
    destruct (IH head w base Hh Hnul' Hlen' Hplain' Hstart' Hfree' Hd')
      as (root1 & Mk1 & Run1).
    rewrite Run1.
    assert (Htl : plain_name tail = true).
    { rewrite Hc, forallb_app in Hplain. apply andb_true_iff in Hplain as [_ Hp].
      simpl in Hp. now rewrite andb_true_r in Hp. }
    assert (Hdot : String.eqb tail "." = false).
    { unfold plain_name, OS.is_dot in Htl.
      apply andb_true_iff in Htl as [D _]. apply negb_true_iff in D.
      now apply orb_false_iff in D. }
    rewrite Hdot.
    set (w1 := mkWorld (w_cwd w) root1 (w_trace w)).
    assert (K := mkdir_p_keeps_dirs _ _ _ Mk1).
    assert (Hstart1 : OS.start (w_root w1) (w_cwd w1) name = inr base).
    { exact (start_kept _ _ _ _ _ K Hstart). }
    assert (Hdir1 : FS.is_dir (base ++ removelast (OS.components name)) (w_root w1)
                    = true).
    { rewrite Hrl. exact (mkdir_p_is_dir _ _ _ Mk1). }
    assert (Hread1 : FS.read (base ++ OS.components name) (w_root w1) = None).
    { unfold FS.read. rewrite Hc, app_assoc. cbn [w1 w_root].
      rewrite (mkdir_p_find_below _ tail _ _ Mk1).
      rewrite <- app_assoc, <- Hc. exact Hread. }
    destruct (mkdir_exist_ok_plain name w1 base Hname Hnul Hlen Hplain Hstart1
                                   Hdir1 Hread1) as (root2 & Mk2 & Run2).
    exists root2. split; [|exact Run2].
    rewrite <- Mk2. rewrite Hc, app_assoc. symmetry.
    exact (mkdir_p_prefix _ tail _ _ Mk1).
Qed.

End MakedirsFacts.

Section GenPwlDataPlain.

Import PyStr StrFacts FSFacts PathFacts OSFacts PyOsFacts PlainFacts MakedirsFacts.

Local Open Scope list_scope.

Variables (fname : string) (w : world) (base : list string).

Hypothesis Hdir : PosixPath.dirname fname <> ""%string.
Hypothesis Hslash : OS.trailing_slash fname = false.
Hypothesis Hnul : has_nul fname = false.
Hypothesis Hlen : (String.length fname < OS.path_max)%nat.
Hypothesis Hplain : forallb plain_name (OS.components fname) = true.
Hypothesis Hstart : OS.start (w_root w) (w_cwd w) fname = inr base.
Hypothesis Hfree :
  FS.no_file_on (base ++ OS.components (PosixPath.dirname fname)) (w_root w) = true.
Hypothesis Hdest : FS.is_dir (base ++ OS.components fname) (w_root w) = false.

(** Where nothing is in the way, the run returns: the directories are made
    as [mkdir_p] makes them, and the file is written below them. *)
Lemma gen_pwl_data_plain :
  exists root1 root2,
    FS.mkdir_p (base ++ OS.components (PosixPath.dirname fname)) (w_root w)
      = inr root1 /\
    FS.write (base ++ OS.components fname) Pwl.text root1 = inr root2 /\
    gen_pwl_data fname w = (Ok tt, mkWorld (w_cwd w) root2 (w_trace w)).
Proof.
  assert (Hname : fname <> ""%string) by (intros ->; now apply Hdir).
  assert (Hl : Nat.leb OS.path_max (String.length fname) = false)
    by now apply Nat.leb_gt.
  assert (Hb := basename_not_nil _ Hname Hslash).
  assert (Hc : OS.components fname
               = OS.components (PosixPath.dirname fname) ++ [PosixPath.basename fname]).
  { rewrite (components_split fname) at 1.
    apply String.eqb_neq in Hb. now rewrite Hb. }
  set (d := PosixPath.dirname fname) in *.
  destruct (dirname_prefix fname) as [rest E]. fold d in E.
  assert (Hdl : Nat.leb OS.path_max (String.length d) = false).
  { rewrite E in Hl. exact (leb_path_max_prefix _ _ Hl). }
  assert (Hdp : forallb plain_name (OS.components d) = true).
  { rewrite Hc, forallb_app in Hplain. now apply andb_true_iff in Hplain. }
  assert (Hds : OS.start (w_root w) (w_cwd w) d = inr base).
  { rewrite <- Hstart. apply start_isabs. now apply isabs_dirname. }
  destruct (makedirs_plain
              (Nat.max (String.length d) (List.length (OS.components d)))
              d w base Hdir (dirname_has_nul _ Hnul) Hdl Hdp Hds Hfree
              (Nat.le_max_r _ _))
    as (root1 & Mk & Run).
  rewrite (makedirs_depth _ (String.length d)) in Run;
    [|apply Nat.le_max_l|apply Nat.le_refl].
  set (w1 := mkWorld (w_cwd w) root1 (w_trace w)).
  assert (K := mkdir_p_keeps_dirs _ _ _ Mk).
  assert (Hd1 : FS.is_dir (base ++ OS.components d) root1 = true)
    by exact (mkdir_p_is_dir _ _ _ Mk).
  assert (Hdest1 : FS.is_dir ((base ++ OS.components d) ++ [PosixPath.basename fname])
                             root1 = false).
  { unfold FS.is_dir. rewrite (mkdir_p_find_below _ _ _ _ Mk).
    rewrite <- app_assoc, <- Hc. exact Hdest. }
  destruct (write_below _ _ Pwl.text _ Hd1 Hdest1) as [root2 Wr].
  rewrite <- app_assoc, <- Hc in Wr, Hdest1.
  exists root1, root2. split; [exact Mk|]. split; [exact Wr|].
  unfold gen_pwl_data, bind. fold d. unfold makedirs. rewrite Run.
  unfold write_file, change. cbn [w_root w_cwd w_trace]. rewrite Hnul.
  assert (Hrl : removelast (OS.components fname) = OS.components d).
  { rewrite Hc. apply removelast_last. }
  assert (N := namei_plain fname w1 base Hname Hl Hplain
                 (start_kept _ _ _ _ _ K Hstart)).
  cbn [w1 w_root w_cwd] in N. rewrite Hrl in N. specialize (N Hd1).
  unfold OS.open_w. rewrite N, Hslash.
  unfold FS.is_dir in Hdest1.
  destruct (FS.find (base ++ OS.components fname) root1) as [[s|es]|];
    [now rewrite Wr|discriminate|].
  replace (last (OS.components fname) ""%string) with (PosixPath.basename fname)
    by (rewrite Hc; symmetry; apply last_last).
  rewrite <- app_assoc, <- Hc. now rewrite Wr.
Qed.

End GenPwlDataPlain.

(** C1. The five (time, amplitude) pairs of [gen_pwl_data]: the times are
    strictly increasing, each exceeding the one before, and the amplitudes
    are [-amp, -amp, +amp, +amp, -amp] for the positive amplitude [amp]. *)
Theorem pwl_points_monotone_pattern :
  let pts := combine Pwl.tvec Pwl.yvec in
  List.length pts = 5%nat /\
  StronglySorted float_lt (map (fun p => to_float (fst p)) pts) /\
  map (fun p => to_float (snd p)) pts
    = [- Pwl.amp; - Pwl.amp; Pwl.amp; Pwl.amp; - Pwl.amp]%float /\
  float_lt 0 Pwl.amp.
Proof.
  cbv zeta. split; [reflexivity|]. split; [|split; reflexivity].
  cbn [Pwl.tvec Pwl.yvec combine map fst to_float].
  repeat (constructor; [|repeat (constructor; [reflexivity|]); constructor]).
  constructor.
Qed.

(** C9. The waveform parameters are constants of the function (100 ps,
    800 ps, 20 ps, 10 mV), so the text written does not depend on any input:
    whatever the path and the state of the world, a run that returns has left
    the same five lines in the file. *)
Theorem gen_pwl_data_content_is_constant (fname : string) (w w' : world) :
  gen_pwl_data fname w = (Ok tt, w') ->
  file_content fname w' = Some pwl_lines /\
  (Pwl.td = 100e-12 /\ Pwl.tpulse = 800e-12 /\ Pwl.tr = 20e-12
   /\ Pwl.amp = 10e-3)%float.
Proof.
  intros H. rewrite <- pwl_text_eq. split.
  - exact (gen_pwl_data_content _ _ _ H).
  - repeat split.
Qed.

Lemma gen_pwl_data_content_is_constant_witness :
  file_content "data/pwl.txt" (snd (gen_pwl_data "data/pwl.txt" Demo.w0))
    = Some pwl_lines /\
  (Pwl.td = 100e-12 /\ Pwl.tpulse = 800e-12 /\ Pwl.tr = 20e-12
   /\ Pwl.amp = 10e-3)%float.
Proof.
  apply (gen_pwl_data_content_is_constant "data/pwl.txt" Demo.w0).
  vm_compute. reflexivity.
Defined.

(** C4. Reading back the file [gen_pwl_data] has written gives five pairs,
    each within the precision of four significant digits of the pair that
    was generated. *)
Theorem pwl_file_roundtrip (fname : string) (w w' : world) :
  gen_pwl_data fname w = (Ok tt, w') ->
  exists text pts,
    file_content fname w' = Some text /\
    Reader.read_pwl text = Some pts /\
    Forall2 (fun p q => agrees (fst p) (fst q) /\ agrees (snd p) (snd q))
            (combine Pwl.tvec Pwl.yvec) pts.
Proof.
  intros H. exists Pwl.text. eexists. split; [exact (gen_pwl_data_content _ _ _ H)|].
  split; [vm_compute; reflexivity|].
  repeat (constructor;
          [split; (eexists; split; [vm_compute; reflexivity|]);
           unfold Reader.within_4_digits; vm_compute; discriminate|]).
  constructor.
Qed.

Lemma pwl_file_roundtrip_witness :
  exists text pts,
    file_content "data/pwl.txt" (snd (gen_pwl_data "data/pwl.txt" Demo.w0))
      = Some text /\
    Reader.read_pwl text = Some pts /\
    Forall2 (fun p q => agrees (fst p) (fst q) /\ agrees (snd p) (snd q))
            (combine Pwl.tvec Pwl.yvec) pts.
Proof.
  apply (pwl_file_roundtrip "data/pwl.txt" Demo.w0).
  vm_compute. reflexivity.
Defined.

(** C5, as stated, fails: a path without a directory part makes
    [os.makedirs] refuse the empty name, a regular file where the directory
    should be is an error, and so is a directory where the file should be. *)
Lemma gen_pwl_data_can_raise :
  gen_pwl_data "pwl.txt" Demo.w0
    = (Raise (OSError FileNotFoundError ""), Demo.w0) /\
  gen_pwl_data "data/pwl.txt" Demo.w_blocked
    = (Raise (OSError FileExistsError "data"), Demo.w_blocked) /\
  gen_pwl_data "data/pwl.txt" Demo.w_is_dir
    = (Raise (OSError IsADirectoryError "data/pwl.txt"), Demo.w_is_dir) /\
  ~ (forall fname w, exists w', gen_pwl_data fname w = (Ok tt, w')).
Proof.
  repeat split; try (vm_compute; reflexivity).
  intros H. destruct (H "pwl.txt" Demo.w0) as [w' Hw]. vm_compute in Hw.
  discriminate.
Qed.

(** C5, amended.  Take a path that has a directory part, does not end in a
    slash, holds no null byte, is shorter than the system's limit, and whose
    components are plain names, no more deep than [os.makedirs] can reach;
    and a file system in which the walk can start (the working directory is
    there), no regular file is on the way to the directory, and no directory
    is where the file goes.  Then [gen_pwl_data] returns: it has made the
    directories that were missing and written the file below them, the
    directory is there afterwards, and the file holds the five lines.  And
    every run that returns, on any path, is idempotent: a second run on the
    same path returns too and leaves the world as the first left it, the
    file with the same content. *)
Theorem gen_pwl_data_creates_dir_and_is_idempotent
    (fname : string) (w : world) (base : list string) :
  let dirs := OS.components (PosixPath.dirname fname) in
  let dest := (base ++ OS.components fname)%list in
  PosixPath.dirname fname <> "" ->
  OS.trailing_slash fname = false ->
  has_nul fname = false ->
  (String.length fname < OS.path_max)%nat ->
  forallb plain_name (OS.components fname) = true ->
  (List.length dirs <= makedirs_reach)%nat ->
  OS.start (w_root w) (w_cwd w) fname = inr base ->
  FS.no_file_on (base ++ dirs) (w_root w) = true ->
  FS.is_dir dest (w_root w) = false ->
  (exists root1 root2,
     FS.mkdir_p (base ++ dirs) (w_root w) = inr root1 /\
     FS.write dest Pwl.text root1 = inr root2 /\
     let w' := mkWorld (w_cwd w) root2 (w_trace w) in
     gen_pwl_data fname w = (Ok tt, w') /\
     path_isdir (PosixPath.dirname fname) w' = true /\
     file_content fname w' = Some Pwl.text) /\
  (forall f v v',
     gen_pwl_data f v = (Ok tt, v') ->
     gen_pwl_data f v' = (Ok tt, v') /\ file_content f v' = Some Pwl.text).
Proof.
  cbv zeta. intros Hdir Hslash Hnul Hlen Hplain _ Hstart Hfree Hdest. split.
  - destruct (gen_pwl_data_plain fname w base Hdir Hslash Hnul Hlen Hplain
                                 Hstart Hfree Hdest) as (root1 & root2 & Mk & Wr & Run).
    exists root1, root2. split; [exact Mk|]. split; [exact Wr|].
    split; [exact Run|]. split.
    + exact (gen_pwl_data_dir _ _ _ Run).
    + exact (gen_pwl_data_content _ _ _ Run).
  - intros f v v' Run. split.
    + exact (gen_pwl_data_idem _ _ _ Run).
    + exact (gen_pwl_data_content _ _ _ Run).
Qed.

Lemma gen_pwl_data_creates_dir_and_is_idempotent_witness :
  (exists root1 root2,
     FS.mkdir_p ["home"; "user"; "data"] Demo.fs0 = inr root1 /\
     FS.write ["home"; "user"; "data"; "pwl.txt"] Pwl.text root1 = inr root2 /\
     let w' := mkWorld "/home/user" root2 [] in
     gen_pwl_data "data/pwl.txt" Demo.w0 = (Ok tt, w') /\
     path_isdir "data" w' = true /\
     file_content "data/pwl.txt" w' = Some Pwl.text) /\
  (forall f v v',
     gen_pwl_data f v = (Ok tt, v') ->
     gen_pwl_data f v' = (Ok tt, v') /\ file_content f v' = Some Pwl.text).
Proof.
  apply (gen_pwl_data_creates_dir_and_is_idempotent
           "data/pwl.txt" Demo.w0 ["home"; "user"]).
  - vm_compute. discriminate.
  - vm_compute. reflexivity.
  - vm_compute. reflexivity.
  - apply Nat.ltb_lt. vm_compute. reflexivity.
  - vm_compute. reflexivity.
  - apply Nat.leb_le. vm_compute. reflexivity.
  - vm_compute. reflexivity.
  - vm_compute. reflexivity.
  - vm_compute. reflexivity.
Defined.

(** ** [os.path.abspath] *)

Module NormFacts.

Import PyStr StrFacts PathFacts.

Local Open Scope list_scope.

Lemma prefix_cons a p b s :
  String.prefix (String a p) (String b s)
  = if ascii_dec a b then String.prefix p s else false.
Proof. reflexivity. Qed.

Lemma prefix_slash_cons d s :
  String.prefix "/" (String d s) = Ascii.eqb d "/".
Proof.
  rewrite prefix_cons, prefix_nil.
  destruct (ascii_dec "/" d) as [<-|N]; [reflexivity|].
  symmetry. apply Ascii.eqb_neq. congruence.
Qed.




Section Absolute.

(** The number of slashes that [normpath] keeps at the head of an absolute
    path: one or two. *)
Variable k : nat.
Hypothesis Hk : k = 1%nat \/ k = 2%nat.




Lemma norm_step_nil st : PosixPath.norm_step k st "" = st.
Proof. reflexivity. Qed.


End Absolute.






End NormFacts.

(** ** [gen_schematics] *)

Lemma emit_run (e : event) (w : world) :
  emit e w = (Ok tt, mkWorld (w_cwd w) (w_root w) (w_trace w ++ [e])).
Proof. reflexivity. Qed.

(** The first part of [gen_schematics], run: it raises exactly when LVS was
    asked for and failed, and it only adds events. *)
Lemma gen_top_schematic_run prj d sp check_lvs w :
  gen_top_schematic prj d sp check_lvs w =
  let after tr := mkWorld (w_cwd w) (w_root w) (w_trace w ++ tr) in
  if check_lvs then
    if fst (run_lvs prj (impl_lib d) (gen_cell d))
    then (Ok tt, after (top_events d sp ++ lvs_events d ++ [Print "lvs passed"])%list)
    else (Raise (ValueError (lvs_failed_message
                               (snd (run_lvs prj (impl_lib d) (gen_cell d))))),
          after (top_events d sp ++ lvs_events d)%list)
  else (Ok tt, after (top_events d sp)).
Proof.
  unfold gen_top_schematic, bind, print, emit, raise, ret, lvs_failed_message.
  cbn -[String.append]. destruct check_lvs; cbn -[String.append].
  - destruct (run_lvs prj (impl_lib d) (gen_cell d)) as [[|] lvs_log];
      cbn -[String.append]; repeat rewrite <- app_assoc; reflexivity.
  - repeat rewrite <- app_assoc; reflexivity.
Qed.

Lemma gen_top_schematic_frame prj d sp check_lvs w r w1 :
  gen_top_schematic prj d sp check_lvs w = (r, w1) ->
  w_cwd w1 = w_cwd w /\ w_root w1 = w_root w.
Proof.
  rewrite gen_top_schematic_run. cbv zeta.
  destruct check_lvs; [destruct (fst (run_lvs prj (impl_lib d) (gen_cell d)))|];
    intros H; inversion H; auto.
Qed.

Module SpecsFacts.

Local Open Scope list_scope.




Lemma abs_objects_nil cwd h x : abs_objects cwd [] h x = h x.
Proof. reflexivity. Qed.




Section Value.

Variables (s s' : specs) (dsn_name cwd : string) (d : dsn_specs)
          (done rest : dict tb_info).

Hypothesis Hview : view_name s' = view_name s.
Hypothesis Henvs : sim_envs s' = sim_envs s.
Hypothesis Hdesigns : designs s' = designs s.
Hypothesis Hd : dict_get dsn_name (designs s) = Some d.
Hypothesis Htbs : testbenches d = done ++ rest.
Hypothesis Hobj : forall x, objects s' x = abs_objects cwd done (objects s) x.


End Value.

End SpecsFacts.

Section GenSchematicsRun.

Import SpecsFacts.

Local Open Scope list_scope.

Lemma absolutize_tran_fname_run r0 h w r h' w' :
  absolutize_tran_fname r0 h w = (r, h', w') ->
  w_cwd w' = w_cwd w /\ w_trace w' = w_trace w /\
  match r with
  | Ok _ => forall x, h' x = if Nat.eqb x r0 then abs_params (w_cwd w) (h x) else h x
  | Raise e => not_value_error e /\ h' = h
  end.
Proof.
  unfold absolutize_tran_fname.
  destruct (dict_get "tran_fname" (h r0)) as [[| | |p|]|] eqn:G;
    try (intros H; inversion H; subst; simpl; auto; fail).
  - unfold abspath at 1, getcwd, bind at 1 2, ret at 1. cbn beta iota.
    unfold bind, ret.
    destruct (gen_pwl_data (PosixPath.abspath (w_cwd w) p) w) as [[[]|e] w1] eqn:Run;
      intros H; inversion H; subst;
      destruct (gen_pwl_data_frame _ _ _ _ Run) as (Hc & Ht & Hn);
      repeat split; auto.
    intros x. unfold heap_set.
    destruct (Nat.eqb x r0) eqn:X; [|reflexivity].
    apply Nat.eqb_eq in X. subst x. unfold abs_params. now rewrite G.
  - intros H; inversion H; subst. repeat split; auto.
    intros x. destruct (Nat.eqb x r0) eqn:X; [|reflexivity].
    apply Nat.eqb_eq in X. subst x. unfold abs_params. now rewrite G.
Qed.

Lemma implement_testbench_run impl gen tb info sp w r w' :
  implement_testbench impl gen tb info sp w = (r, w') ->
  w_cwd w' = w_cwd w /\ w_root w' = w_root w /\
  match r with Ok _ => True | Raise e => not_value_error e end.
Proof.
  unfold implement_testbench, bind, print, emit, raise.
  destruct (dict_mem "dut_lib" sp || dict_mem "dut_cell" sp);
    cbn -[String.append]; intros H; inversion H; subst; simpl; auto.
Qed.

(** One testbench: the dictionary of its schematic parameters has the path
    made absolute, unless the iteration stopped before that. *)
Lemma gen_tb_schematic_run impl gen name info h w r h' w' :
  gen_tb_schematic impl gen name info h w = (r, h', w') ->
  w_cwd w' = w_cwd w /\
  match r with Ok _ => True | Raise e => not_value_error e end /\
  ((r <> Ok tt /\ h' = h) \/
   (forall x, h' x = if Nat.eqb x (sch_params info)
                     then abs_params (w_cwd w) (h x) else h x)).
Proof.
  unfold gen_tb_schematic.
  destruct (absolutize_tran_fname (sch_params info) h w) as [[r1 h1] w1] eqn:A.
  destruct (absolutize_tran_fname_run _ _ _ _ _ _ A) as (Hc & _ & Hr).
  destruct r1 as [[]|e].
  - destruct (implement_testbench _ _ _ _ _ w1) as [r2 w2] eqn:I2.
    destruct (implement_testbench_run _ _ _ _ _ _ _ _ I2) as (Hc2 & _ & Hr2).
    intros H; inversion H; subst. split; [congruence|]. split; [exact Hr2|].
    right. exact Hr.
  - intros H; inversion H; subst. destruct Hr as [Hn ->].
    split; [exact Hc|]. split; [exact Hn|]. left. split; [discriminate|reflexivity].
Qed.


End GenSchematicsRun.

Lemma gen_tb_schematics_not_value_error impl gen tbs : forall h w e h' w',
  gen_tb_schematics impl gen tbs h w = (Raise e, h', w') -> not_value_error e.
Proof.
  induction tbs as [|[name info] tl IH]; intros h w e h' w'; simpl; [discriminate|].
  destruct (gen_tb_schematic impl gen name info h w) as [[r1 h1] w1] eqn:G.
  destruct (gen_tb_schematic_run _ _ _ _ _ _ _ _ _ G) as (_ & Hn & _).
  destruct r1 as [[]|e1].
  - apply IH.
  - intros H; inversion H; subst. exact Hn.
Qed.

(** C2. [gen_schematics] raises [ValueError] if and only if LVS was asked
    for and the run reports failure; the message then is the fixed text
    followed by the path of the LVS log.  The script raises nothing else
    itself: any other exception is the interpreter's or the operating
    system's. *)
Theorem gen_schematics_raises_iff_lvs_fails
    (prj : bag_project) (s : specs) (dsn_name : string) (sch_params : dict pyval)
    (check_lvs : bool) (w : world) (msg : string) :
  (exists s' w',
      gen_schematics prj s dsn_name sch_params check_lvs w
        = (Raise (ValueError msg), s', w'))
  <->
  (exists d,
      dict_get dsn_name (designs s) = Some d /\
      check_lvs = true /\
      fst (run_lvs prj (impl_lib d) (gen_cell d)) = false /\
      msg = "LVS failed.  check log file: "
              ++ snd (run_lvs prj (impl_lib d) (gen_cell d))).
Proof.
  unfold gen_schematics. split.
  - intros (s' & w' & H).
    destruct (dict_get dsn_name (designs s)) as [d|]; [|discriminate].
    exists d. rewrite gen_top_schematic_run in H. cbv zeta in H.
    destruct check_lvs.
    + destruct (fst (run_lvs prj (impl_lib d) (gen_cell d))) eqn:Lvs.
      * exfalso.
        destruct (gen_tb_schematics _ _ _ _ _) as [[r h'] w2] eqn:L.
        destruct r as [[]|e]; inversion H; subst.
        exact (gen_tb_schematics_not_value_error _ _ _ _ _ _ _ _ L).
      * inversion H. auto.
    + exfalso.
      destruct (gen_tb_schematics _ _ _ _ _) as [[r h'] w2] eqn:L.
      destruct r as [[]|e]; inversion H; subst.
      exact (gen_tb_schematics_not_value_error _ _ _ _ _ _ _ _ L).
  - intros (d & Hd & -> & Lvs & ->). rewrite Hd, gen_top_schematic_run.
    cbv zeta. rewrite Lvs. eauto.
Qed.

(** C8. When LVS is asked for and fails, [gen_schematics] stops there: it
    raises after the seven events of the design's own schematic and of the
    LVS run, so no testbench design module was created or implemented; the
    file system is as before, so no stimulus file was written; and the
    specification is untouched. *)
Theorem gen_schematics_fails_fast
    (prj : bag_project) (s : specs) (dsn_name : string) (sch_params : dict pyval)
    (w : world) (d : dsn_specs) :
  dict_get dsn_name (designs s) = Some d ->
  fst (run_lvs prj (impl_lib d) (gen_cell d)) = false ->
  gen_schematics prj s dsn_name sch_params true w =
    (Raise (ValueError ("LVS failed.  check log file: "
                          ++ snd (run_lvs prj (impl_lib d) (gen_cell d)))),
     s,
     mkWorld (w_cwd w) (w_root w)
             (w_trace w ++
                [CreateDesignModule (sch_lib d) (sch_cell d);
                 Print ("computing " ++ gen_cell d ++ " schematics");
                 Design (sch_lib d) (sch_cell d) sch_params;
                 Print ("creating " ++ gen_cell d ++ " schematics");
                 ImplementDesign (sch_lib d) (sch_cell d) (impl_lib d) (gen_cell d);
                 Print "running lvs";
                 RunLvs (impl_lib d) (gen_cell d)])).
Proof.
  intros Hd Lvs. unfold gen_schematics.
  rewrite Hd, gen_top_schematic_run. cbv zeta. rewrite Lvs. reflexivity.
Qed.

Lemma gen_schematics_fails_fast_witness :
  gen_schematics (Demo.prj false) (Demo.demo_specs "demo_data/pwl.txt") "amp_sf"
                 Demo.dsn_sch_params true Demo.w0 =
    (Raise (ValueError "LVS failed.  check log file: /lvs/AMP_SF.log"),
     Demo.demo_specs "demo_data/pwl.txt",
     mkWorld "/home/user" Demo.fs0
             [CreateDesignModule "demo_templates" "amp_sf";
              Print "computing AMP_SF schematics";
              Design "demo_templates" "amp_sf" Demo.dsn_sch_params;
              Print "creating AMP_SF schematics";
              ImplementDesign "demo_templates" "amp_sf" "AAAFOO_DEMO" "AMP_SF";
              Print "running lvs";
              RunLvs "AAAFOO_DEMO" "AMP_SF"]).
Proof.
  apply (gen_schematics_fails_fast (Demo.prj false)
           (Demo.demo_specs "demo_data/pwl.txt") "amp_sf" Demo.dsn_sch_params
           Demo.w0 Demo.amp_sf).
  - reflexivity.
  - reflexivity.
Defined.




(** ** Result files: [simulate] and [load_sim_data] *)

Module JoinFacts.

Import PyStr StrFacts PathFacts.

Lemma last_char_split c s :
  last_char s = Some c -> exists s', s = s' ++ String c "".
Proof.
  induction s as [|d r IH]; simpl; [discriminate|].
  destruct r as [|d2 r2].
  - intros H; inversion H. now exists "".
  - intros H. destruct (IH H) as [s' ->]. now exists (String d s').
Qed.

(** A name without a slash, joined to a directory: the result is the
    directory, a slash unless there is one or the directory is empty, and
    the name. *)
Lemma join_cases d x :
  contains "/" x = false ->
  (d = "" /\ PosixPath.join d x = x) \/
  (exists d', (d = d' ++ "/" \/ d = d') /\ PosixPath.join d x = d' ++ String "/" x
              /\ OS.components d' = OS.components d).
Proof.
  intros Hx. unfold PosixPath.join, startswith.
  assert (Hp : String.prefix "/" x = false).
  { destruct x as [|c r]; [reflexivity|].
    rewrite NormFacts.prefix_slash_cons. simpl in Hx.
    apply orb_false_iff in Hx as [Hx _]. now rewrite Ascii.eqb_sym. }
  rewrite Hp. destruct (String.eqb d "") eqn:Ed; cbn [orb].
  - apply String.eqb_eq in Ed. subst d. now left.
  - right. destruct (endswith_char "/" d) eqn:Es.
    + unfold endswith_char in Es. destruct (last_char d) as [e|] eqn:L;
        [|discriminate]. apply Ascii.eqb_eq in Es. subst e.
      destruct (last_char_split _ _ L) as [d' ->].
      exists d'. split; [now left|]. split.
      * now rewrite append_assoc.
      * now rewrite components_app_sep, components_nil, app_nil_r.
    + exists d. auto.
Qed.

Lemma basename_join d x :
  contains "/" x = false -> PosixPath.basename (PosixPath.join d x) = x.
Proof.
  intros Hx. unfold PosixPath.basename.
  destruct (join_cases d x Hx) as [[-> ->]|(d' & _ & -> & _)].
  - now apply after_last_none.
  - now apply after_last_app_sep.
Qed.

(** And the directory part of the result is the directory. *)
Lemma dirname_join d x :
  contains "/" x = false ->
  OS.components (PosixPath.dirname (PosixPath.join d x)) = OS.components d.
Proof.
  intros Hx. rewrite dirname_components.
  destruct (join_cases d x Hx) as [[-> ->]|(d' & _ & -> & <-)].
  - now rewrite (upto_last_none _ _ Hx).
  - rewrite (upto_last_app_sep _ _ _ Hx).
    now rewrite components_app_sep, components_nil, app_nil_r.
Qed.

End JoinFacts.

Lemma set_parameters_spec tb ps : forall w,
  set_parameters tb ps w
    = (Ok tt, mkWorld (w_cwd w) (w_root w)
                      (w_trace w
                         ++ map (fun kv => SetParameter tb (fst kv) (snd kv)) ps)).
Proof.
  induction ps as [|[key val] rest IH]; intros w; simpl.
  - rewrite app_nil_r. now destruct w.
  - unfold bind. rewrite emit_run, IH. cbn [w_cwd w_root w_trace fst snd].
    now rewrite <- app_assoc.
Qed.

(** The loop of [simulate], in closed form. *)
Lemma simulate_loop_spec prj view envs d h tbs : forall acc w,
  simulate_loop prj view envs d h tbs acc w =
  (Ok (collect (sim_result prj d) (dict_keys tbs) acc),
   mkWorld (w_cwd w) (w_root w)
           (w_trace w ++ flat_map (sim_events prj view envs d h) tbs)).
Proof.
  induction tbs as [|[name info] rest IH]; intros acc w.
  - simpl. rewrite app_nil_r. now destruct w.
  - cbn [simulate_loop]. unfold bind at 1 2, print. rewrite !emit_run.
    cbn [w_cwd w_root w_trace]. unfold bind at 1. rewrite set_parameters_spec.
    cbn [w_cwd w_root w_trace]. unfold bind. rewrite !emit_run.
    cbn [w_cwd w_root w_trace]. rewrite IH. cbn [w_cwd w_root w_trace].
    cbn [dict_keys map fst collect fold_left flat_map].
    unfold sim_events at 2, sim_result at 2. cbn [fst snd].
    repeat rewrite <- app_assoc. reflexivity.
Qed.

(** The loop of [load_sim_data], in closed form. *)
Lemma load_loop_spec prj d tbs : forall acc w,
  load_loop prj d tbs acc w =
  (Ok (collect (fun name => load_sim_file prj (result_file d name))
               (dict_keys tbs) acc),
   mkWorld (w_cwd w) (w_root w) (w_trace w ++ flat_map (load_events d) tbs)).
Proof.
  induction tbs as [|[name info] rest IH]; intros acc w.
  - simpl. rewrite app_nil_r. now destruct w.
  - cbn [load_loop]. unfold bind, print. rewrite !emit_run.
    cbn [w_cwd w_root w_trace]. rewrite IH. cbn [w_cwd w_root w_trace].
    cbn [dict_keys map fst collect fold_left flat_map].
    unfold load_events at 2. cbn [fst snd].
    repeat rewrite <- app_assoc. reflexivity.
Qed.

Lemma simulate_spec prj s dsn d w :
  dict_get dsn (designs s) = Some d ->
  simulate prj s dsn w =
  (Ok (collect (sim_result prj d) (dict_keys (testbenches d)) []),
   mkWorld (w_cwd w) (w_root w)
           (w_trace w
              ++ flat_map (sim_events prj (view_name s) (sim_envs s) d (objects s))
                          (testbenches d)
              ++ [Print "all simulation done"])).
Proof.
  intros Hd. unfold simulate. rewrite Hd. unfold bind.
  rewrite simulate_loop_spec. unfold print. rewrite emit_run.
  cbn [w_cwd w_root w_trace]. unfold ret. now rewrite <- app_assoc.
Qed.

Lemma load_sim_data_spec prj s dsn d w :
  dict_get dsn (designs s) = Some d ->
  load_sim_data prj s dsn w =
  (Ok (collect (fun name => load_sim_file prj (result_file d name))
               (dict_keys (testbenches d)) []),
   mkWorld (w_cwd w) (w_root w)
           (w_trace w ++ flat_map (load_events d) (testbenches d)
              ++ [Print "finish loading data"])).
Proof.
  intros Hd. unfold load_sim_data. rewrite Hd. unfold bind.
  rewrite load_loop_spec. unfold print. rewrite emit_run.
  cbn [w_cwd w_root w_trace]. unfold ret. now rewrite <- app_assoc.
Qed.

Lemma saved_sim_events prj view envs d h tbs :
  saved (flat_map (sim_events prj view envs d h) tbs)
  = map (fun ni => (result_file d (fst ni), sim_result prj d (fst ni))) tbs.
Proof.
  induction tbs as [|ni rest IH]; [reflexivity|].
  cbn [flat_map map]. unfold saved in *. rewrite flat_map_app, IH.
  unfold sim_events at 1. rewrite !flat_map_app.
  assert (E : forall tb ps,
            flat_map (fun e => match e with
                               | SaveSimResults f data => [(f, data)]
                               | _ => []
                               end)
                     (map (fun kv : string * pyval => SetParameter tb (fst kv) (snd kv)) ps)
            = []).
  { intros tb ps. induction ps; simpl; auto. }
  rewrite E. reflexivity.
Qed.

Lemma loaded_load_events d tbs :
  loaded_files (flat_map (load_events d) tbs)
  = map (fun ni => result_file d (fst ni)) tbs.
Proof.
  induction tbs as [|ni rest IH]; [reflexivity|].
  cbn [flat_map map]. unfold loaded_files in *. rewrite flat_map_app, IH.
  reflexivity.
Qed.

Lemma collect_ext {V : Type} (f g : string -> V) names :
  (forall name, f name = g name) ->
  forall acc, collect f names acc = collect g names acc.
Proof.
  intros H. unfold collect. induction names as [|n r IH]; intros acc; simpl;
    [reflexivity|]. now rewrite H, IH.
Qed.

Lemma result_file_eq (d : dsn_specs) (name : string) :
  result_file d name
    = PosixPath.join (data_dir d) (gen_cell d ++ "_" ++ name ++ ".hdf5").
Proof.
  unfold result_file, tb_gen_cell_name.
  now rewrite !StrFacts.append_assoc.
Qed.

(** C6, as stated, fails for names that hold a slash: with the generated
    cell name [/G] and the testbench name [a/b], the file [simulate] saves
    to and [load_sim_data] loads from is [/G_a/b.hdf5], which is not in the
    data directory [demo_data] and whose base name is [b.hdf5]. *)
Lemma result_file_can_leave_data_dir :
  saved (w_trace (snd (simulate (Demo.prj true) Demo.odd_specs "amp_sf" Demo.w0)))
    = [("/G_a/b.hdf5", [("vout", RealVec [0.5; 0.6]%float)])] /\
  loaded_files (w_trace (snd (load_sim_data (Demo.prj true) Demo.odd_specs "amp_sf"
                                            Demo.w0)))
    = ["/G_a/b.hdf5"] /\
  data_dir Demo.odd_names = "demo_data" /\
  PosixPath.dirname "/G_a/b.hdf5" = "/G_a" /\
  PosixPath.basename "/G_a/b.hdf5" = "b.hdf5" /\
  gen_cell Demo.odd_names ++ "_" ++ "a/b" ++ ".hdf5" = "/G_a/b.hdf5".
Proof. repeat split; vm_compute; reflexivity. Qed.

(** C6, amended.  [simulate] goes through the testbenches of the design in
    order and for each configures the testbench, runs the simulation, loads
    the results from the directory the testbench saves into, and saves just
    these to the file [os.path.join(data_dir, gen_cell + '_' + name +
    '.hdf5')]; it returns them by testbench name and does not raise.
    [load_sim_data] loads from exactly these files, in the same order.
    When the generated cell name and the testbench name hold no slash, the
    file is in the data directory and its base name is the generated cell
    name, an underscore, the testbench name and [.hdf5]. *)
Theorem result_files_saved_and_loaded
    (prj : bag_project) (s : specs) (dsn_name : string) (d : dsn_specs)
    (w1 w2 : world) :
  dict_get dsn_name (designs s) = Some d ->
  let names := dict_keys (testbenches d) in
  let file name :=
    PosixPath.join (data_dir d) (gen_cell d ++ "_" ++ name ++ ".hdf5") in
  simulate prj s dsn_name w1
    = (Ok (collect (sim_result prj d) names []),
       mkWorld (w_cwd w1) (w_root w1)
               (w_trace w1
                  ++ flat_map (sim_events prj (view_name s) (sim_envs s) d (objects s))
                              (testbenches d)
                  ++ [Print "all simulation done"])) /\
  saved (w_trace (snd (simulate prj s dsn_name w1)))
    = (saved (w_trace w1)
         ++ map (fun name => (file name, sim_result prj d name)) names)%list /\
  load_sim_data prj s dsn_name w2
    = (Ok (collect (fun name => load_sim_file prj (file name)) names []),
       mkWorld (w_cwd w2) (w_root w2)
               (w_trace w2 ++ flat_map (load_events d) (testbenches d)
                  ++ [Print "finish loading data"])) /\
  loaded_files (w_trace (snd (load_sim_data prj s dsn_name w2)))
    = (loaded_files (w_trace w2) ++ map file names)%list /\
  (forall ni, result_file d ni = file ni) /\
  (forall name,
      PyStr.contains "/" (gen_cell d) = false ->
      PyStr.contains "/" name = false ->
      PosixPath.basename (file name) = gen_cell d ++ "_" ++ name ++ ".hdf5" /\
      OS.components (PosixPath.dirname (file name)) = OS.components (data_dir d)).
Proof.
  intros Hd names file.
  assert (Hfile : forall name, result_file d name = file name)
    by (intros name; apply result_file_eq).
  rewrite (simulate_spec _ _ _ _ _ Hd), (load_sim_data_spec _ _ _ _ _ Hd).
  cbn [snd w_trace]. fold names.
  split; [reflexivity|]. split; [|split; [|split; [|split]]].
  - unfold saved at 1. rewrite !flat_map_app. fold (saved (w_trace w1)).
    f_equal. cbn [flat_map]. rewrite app_nil_r.
    change (flat_map _ (flat_map ?f ?l)) with (saved (flat_map f l)).
    rewrite saved_sim_events. unfold names, dict_keys. rewrite map_map.
    apply map_ext. intros ni. now rewrite Hfile.
  - f_equal. f_equal. apply collect_ext. intros name. now rewrite Hfile.
  - unfold loaded_files at 1. rewrite !flat_map_app.
    fold (loaded_files (w_trace w2)). f_equal. cbn [flat_map]. rewrite app_nil_r.
    change (flat_map _ (flat_map ?f ?l)) with (loaded_files (flat_map f l)).
    rewrite loaded_load_events. unfold names, dict_keys. rewrite map_map.
    apply map_ext. intros ni. now rewrite Hfile.
  - exact Hfile.
  - intros name Hg Hn.
    assert (Hx : PyStr.contains "/" (gen_cell d ++ "_" ++ name ++ ".hdf5") = false).
    { rewrite !StrFacts.contains_app, Hg, Hn. reflexivity. }
    split; [now apply JoinFacts.basename_join|now apply JoinFacts.dirname_join].
Qed.

Lemma result_files_saved_and_loaded_witness :
  let prj := Demo.prj true in
  let s := Demo.demo_specs "demo_data/pwl.txt" in
  let d := Demo.amp_sf in
  let names := dict_keys (testbenches d) in
  let file name :=
    PosixPath.join (data_dir d) (gen_cell d ++ "_" ++ name ++ ".hdf5") in
  simulate prj s "amp_sf" Demo.w0
    = (Ok (collect (sim_result prj d) names []),
       mkWorld (w_cwd Demo.w0) (w_root Demo.w0)
               (w_trace Demo.w0
                  ++ flat_map (sim_events prj (view_name s) (sim_envs s) d (objects s))
                              (testbenches d)
                  ++ [Print "all simulation done"])) /\
  saved (w_trace (snd (simulate prj s "amp_sf" Demo.w0)))
    = (saved (w_trace Demo.w0)
         ++ map (fun name => (file name, sim_result prj d name)) names)%list /\
  load_sim_data prj s "amp_sf" Demo.w0
    = (Ok (collect (fun name => load_sim_file prj (file name)) names []),
       mkWorld (w_cwd Demo.w0) (w_root Demo.w0)
               (w_trace Demo.w0 ++ flat_map (load_events d) (testbenches d)
                  ++ [Print "finish loading data"])) /\
  loaded_files (w_trace (snd (load_sim_data prj s "amp_sf" Demo.w0)))
    = (loaded_files (w_trace Demo.w0) ++ map file names)%list /\
  (forall ni, result_file d ni = file ni) /\
  (forall name,
      PyStr.contains "/" (gen_cell d) = false ->
      PyStr.contains "/" name = false ->
      PosixPath.basename (file name) = gen_cell d ++ "_" ++ name ++ ".hdf5" /\
      OS.components (PosixPath.dirname (file name)) = OS.components (data_dir d)).
Proof.
  cbv zeta.
  apply (result_files_saved_and_loaded (Demo.prj true)
           (Demo.demo_specs "demo_data/pwl.txt") "amp_sf" Demo.amp_sf
           Demo.w0 Demo.w0).
  reflexivity.
Defined.

(** ** [plot_data]: sorting by the input voltage *)

Module FloatFacts.

Local Open Scope float_scope.










End FloatFacts.

Module PlotFacts.

Import Plot FloatFacts.
Local Open Scope nat_scope.








End PlotFacts.




(** ** [plot_data]: magnitude and phase *)

Module LibmFacts.

Local Open Scope float_scope.






End LibmFacts.



